(** * now-cli: the [certs] command (src/providers/sh/commands/certs.js)

    A shallow embedding of the command's dispatcher.  The command is glue
    around collaborators that live outside the file: the remote client
    [NowCerts], the file system, standard input, the JavaScript runtime
    and the [exit] helper.  They are gathered in an environment [Env];
    what the command does to them is recorded as a trace of events.
    Messages are kept as data: colours, clock readings and the elapsed
    times printed with them are left out. *)

From Stdlib Require Import List String Ascii ZArith Bool Arith Lia.
From Stdlib Require Import Sorting.Sorted Sorting.Permutation.
Import ListNotations.
Open Scope string_scope.
Open Scope nat_scope.
Open Scope list_scope.

(** ** JavaScript values used by the command *)

Module Js.

(** A string or [undefined] ([None]): text the command compares as a
    whole or passes on. *)
Definition value := option string.

(** Truthiness: [undefined] and the empty string are falsy. *)
Definition truthy (v : value) : bool :=
  match v with
  | Some s => negb (String.eqb s "")
  | None => false
  end.

(** [v === s] for a string literal [s]. *)
Definition strict_eq (s : string) (v : value) : bool :=
  match v with
  | Some s' => String.eqb s s'
  | None => false
  end.

(** [a || b] *)
Definition or (a b : value) : value := if truthy a then a else b.

(** A string whose characters the command looks at: its UTF-16 code
    units. *)
Definition units := list N.

(** The code units of a literal below U+0100. *)
Definition fromString (s : string) : units :=
  map N_of_ascii (list_ascii_of_string s).

(** [a === b] on strings of code units. *)
Fixpoint eqb (a b : units) : bool :=
  match a, b with
  | [], [] => true
  | x :: a', y :: b' => N.eqb x y && eqb a' b'
  | _, _ => false
  end.

(** WhiteSpace and LineTerminator of the language: TAB, LF, VT, FF, CR,
    SP, NBSP, U+1680, U+2000 to U+200A, LS, PS, U+202F, U+205F, U+3000
    and the byte order mark U+FEFF. *)
Definition isWhiteSpace (c : N) : bool :=
  (((0x09 <=? c) && (c <=? 0x0D))
   || (c =? 0x20) || (c =? 0xA0) || (c =? 0x1680)
   || ((0x2000 <=? c) && (c <=? 0x200A))
   || (c =? 0x2028) || (c =? 0x2029) || (c =? 0x202F)
   || (c =? 0x205F) || (c =? 0x3000) || (c =? 0xFEFF))%N.

Fixpoint trimStart (l : units) : units :=
  match l with
  | c :: l' => if isWhiteSpace c then trimStart l' else l
  | [] => []
  end.

Definition trimEnd (l : units) : units :=
  rev (trimStart (rev l)).

(** [String.prototype.trim] *)
Definition trim (s : units) : units := trimEnd (trimStart s).

(** [Array.prototype.sort] with a comparator, as a stable insertion
    sort: an element goes in front of the first one it does not
    compare greater than. *)
Section Sort.
Context {A : Type} (cmp : A -> A -> Z).

Fixpoint insert (x : A) (l : list A) : list A :=
  match l with
  | [] => [x]
  | y :: l' => if (cmp x y <=? 0)%Z then x :: l else y :: insert x l'
  end.

Fixpoint sort (l : list A) : list A :=
  match l with
  | [] => []
  | x :: l' => insert x (sort l')
  end.
End Sort.

End Js.

(** ** Data model *)

(** A certificate record as the remote API returns it. *)
Record Cert := mkCert {
  uid : string;
  cn : string;
  created : Z;
  expiration : Z;
  autoRenew : bool
}.

Record Team := mkTeam { slug : Js.value }.

Record User := mkUser { username : Js.value; email : Js.value }.

(** [config.sh] *)
Record Sh := mkSh { currentTeam : option Team; user : User }.

(** The result of [mri]: [argv_] is the list of positionals [argv._]. *)
Record Argv := mkArgv {
  argv_ : list string;
  argv_crt : Js.value;
  argv_key : Js.value;
  argv_ca : Js.value;
  argv_help : bool;
  argv_debug : bool
}.

(** The module-level variables [argv], [debug], [apiUrl], [subcommand]. *)
Record Globals := mkGlobals {
  argv : Argv;
  debug : bool;
  apiUrl : string;
  subcommand : Js.value
}.

Record Credential := mkCredential { provider : string; token : string }.

(** The context handed to [main]; [ctx_argv] is what [mri] makes of
    [ctx.argv.slice(2)]. *)
Record Ctx := mkCtx {
  ctx_argv : Argv;
  ctx_apiUrl : string;
  credentials : list Credential;
  sh : Sh
}.

(** ** Collaborators *)

Definition exn := string.

(** A call either returns or throws. *)
Inductive result (A : Type) : Type :=
| Ok (a : A)
| Err (e : exn).
Arguments Ok {A} a.
Arguments Err {A} e.

(** The remote client: what each method answers.  [create] and [put]
    answer a certificate or a falsy value ([None]). *)
Record NowCerts := mkNowCerts {
  ls : result (list Cert);
  create : string -> result (option Cert);
  put : string -> string -> string -> string -> result (option Cert);
  renew : string -> result unit;
  delete : string -> result unit;
  close : result unit
}.

Record Env := mkEnv {
  (** [new NowCerts({ apiUrl, token, debug, currentTeam })] *)
  newNowCerts : string -> string -> bool -> option Team -> NowCerts;
  (** [fs.readFileSync(path.resolve(file), 'utf8')] *)
  readFileSync : string -> result string;
  (** the first chunk standard input delivers, if any, as [toString()]
      decodes it *)
  stdin : option Js.units;
  (** [String.prototype.localeCompare] of the runtime *)
  localeCompare : string -> string -> Z;
  (** [String.prototype.toLowerCase] of the runtime *)
  toLowerCase : Js.units -> Js.units;
  supportsColor : bool;
  (** whether [exit] ends the process before it returns to its caller *)
  exit_sync : bool
}.

(** ** Events *)

Inductive api_call : Type :=
| Ls
| Create (cn : string)
| Put (cn crt key ca : string)
| Renew (cn : string)
| Delete (cn : string)
| Close.

Inductive message : Type :=
| InvalidNumberOfArguments (usage : string)
| MissingRequiredArguments (usage : string)
| NoCertificateFound (idOrCn : Js.value) (scope : Js.value)
| UserAbort
| InvalidSubcommand
| CertificatesFound (n : nat) (scope : Js.value)
| TableHeader (width : nat)
| TableRow (c : Cert) (width : nat)
| Success (cn uid verb : string)
| ConfirmMessage (msg : string)
| ConfirmRow (c : Cert)
| AreYouSure.

Inductive event : Type :=
| Construct (apiUrl tok : string) (dbg : bool) (team : option Team)
| Api (c : api_call)
| ReadFile (file : string)
| ConsoleError (m : message)
| ConsoleLog (m : message)
| StdoutWrite (m : message)
| HelpText
| StdinResume
| StdinPause
| HandleError (e : exn)
| Exit (code : nat)
| ProcessExit (code : nat).

Definition trace := list event.

(** ** The effect monad: a trace and how control leaves *)

(** [Ret]: the computation returns; [Throw]: it throws; [Halt]: control
    does not come back, the process is ending or the awaited promise
    never settles. *)
Inductive outcome (A : Type) : Type :=
| Ret (a : A)
| Throw (e : exn)
| Halt.
Arguments Ret {A} a.
Arguments Throw {A} e.
Arguments Halt {A}.

Definition M (A : Type) : Type := (trace * outcome A)%type.

Definition ret {A} (a : A) : M A := ([], Ret a).

Definition bind {A B} (m : M A) (f : A -> M B) : M B :=
  let (t, o) := m in
  match o with
  | Ret a => let (t', o') := f a in (t ++ t', o')
  | Throw e => (t, Throw e)
  | Halt => (t, Halt)
  end.

Notation "x <- m ;; k" := (bind m (fun x => k))
  (at level 61, m at next level, right associativity).
Notation "m ;;; k" := (bind m (fun _ => k))
  (at level 61, right associativity).

Definition emit (e : event) : M unit := ([e], Ret tt).

Definition halt {A} : M A := ([], Halt).

Definition throw {A} (e : exn) : M A := ([], Throw e).

(** A call on a collaborator: the event, then its answer. *)
Definition call {A} (e : event) (r : result A) : M A :=
  ([e], match r with Ok a => Ret a | Err x => Throw x end).

(** [try { m } catch (err) { h err }] *)
Definition try_catch {A} (m : M A) (h : exn -> M A) : M A :=
  let (t, o) := m in
  match o with
  | Throw e => let (t', o') := h e in (t ++ t', o')
  | _ => (t, o)
  end.

(** The line feed that ends a message. *)
Definition LF : string := String (ascii_of_nat 10) EmptyString.

(** [list.forEach(f)] *)
Fixpoint forEach {A} (l : list A) (f : A -> M unit) : M unit :=
  match l with
  | [] => ret tt
  | x :: l' => f x ;;; forEach l' f
  end.

(** ** The command *)

(** [help()] prints the usage text. *)
Definition help : M unit := emit HelpText.

(** Modelled from the spec: the helper [exit] of util/exit is not among
    the sources.  The spec has the command "terminate with exit code 0
    or 1": a call asks for the process to end with [code].  Whether the
    statement after a bare call still runs is left to [exit_sync]. *)
Definition exit (E : Env) (code : nat) : M unit :=
  ([Exit code], if exit_sync E then Halt else Ret tt).

(** [return exit(code)] and [await exit(code)]: the caller hands
    control to [exit] and gets none back. *)
Definition await_exit {A} (E : Env) (code : nat) : M A :=
  exit E code ;;; halt.

(** The exit code of the process: the first one asked for, 0 when the
    process ends on its own. *)
Fixpoint exitCode (t : trace) : nat :=
  match t with
  | [] => 0
  | Exit c :: _ => c
  | ProcessExit c :: _ => c
  | _ :: t' => exitCode t'
  end.

(** [(currentTeam && currentTeam.slug) || user.username || user.email] *)
Definition scopeName (currentTeam : option Team) (user : User) : Js.value :=
  Js.or (Js.or (match currentTeam with Some t => slug t | None => None end)
               (username user))
        (email user).

Definition readX509File (E : Env) (file : Js.value) : M string :=
  match file with
  | Some f => call (ReadFile f) (readFileSync E f)
  | None => throw "TypeError"
  end.

Definition readConfirmation (E : Env) (cert : Cert) (msg : string) : M bool :=
  emit (StdoutWrite (ConfirmMessage msg)) ;;;
  emit (StdoutWrite (ConfirmRow cert)) ;;;
  emit (StdoutWrite AreYouSure) ;;;
  emit StdinResume ;;;
  match stdin E with
  | Some d =>
      emit StdinPause ;;;
      ret (Js.eqb (toLowerCase E (Js.trim d)) (Js.fromString "y"))
  | None => halt
  end.

Definition getCertIdCn (certs : NowCerts) (idOrCn : Js.value)
    (currentTeam : option Team) (user : User) : M (option Cert) :=
  list <- call (Api Ls) (ls certs) ;;
  let thecert :=
    nth_error
      (filter (fun cert => Js.strict_eq (uid cert) idOrCn
                           || Js.strict_eq (cn cert) idOrCn) list) 0 in
  match thecert with
  | None =>
      emit (ConsoleError (NoCertificateFound idOrCn
                            (scopeName currentTeam user))) ;;;
      ret None
  | Some c => ret (Some c)
  end.

(** The flags a custom certificate takes, as the usage lines show them. *)
Definition custom_flags : string :=
  "--crt DOMAIN.CRT --key DOMAIN.KEY [--ca CA.CRT] <id | cn>`".

Definition replace_usage : string :=
  ("`now certs replace " ++ custom_flags)%string.

Definition create_usage : string :=
  ("`now certs create " ++ custom_flags)%string.

Definition renewed : string :=
  ("The following certificate will be renewed" ++ LF)%string.

Definition replaced : string :=
  ("The following certificate will be replaced permanently" ++ LF)%string.

Definition removed : string :=
  ("The following certificate will be removed permanently" ++ LF)%string.

Definition run (E : Env) (G : Globals) (token : string) (sh : Sh) : M unit :=
  let currentTeam := currentTeam sh in
  let user := user sh in
  let argv := argv G in
  let subcommand := subcommand G in
  let certs := newNowCerts E (apiUrl G) token (debug G) currentTeam in
  emit (Construct (apiUrl G) token (debug G) currentTeam) ;;;
  let args := tl (argv_ argv) in
  (if Js.strict_eq "ls" subcommand || Js.strict_eq "list" subcommand then
     if negb (List.length args =? 0) then
       emit (ConsoleError (InvalidNumberOfArguments "`now certs ls`")) ;;;
       await_exit E 1
     else
       list <- call (Api Ls) (ls certs) ;;
       emit (ConsoleLog (CertificatesFound (List.length list)
                           (scopeName currentTeam user))) ;;;
       if 0 <? List.length list then
         let list :=
           Js.sort (fun a b => localeCompare E (cn a) (cn b)) list in
         let maxCnLength :=
           fold_left (fun acc i => Nat.max acc (String.length (cn i)))
                     list 0 + 1 in
         emit (ConsoleLog (TableHeader maxCnLength)) ;;;
         forEach list (fun cert =>
           emit (StdoutWrite
                   (TableRow cert (if supportsColor E
                                   then maxCnLength + 9
                                   else maxCnLength))))
       else ret tt
   else if Js.strict_eq "create" subcommand then
     match args with
     | [cn] =>
         cert <-
           (if Js.truthy (argv_crt argv) || Js.truthy (argv_key argv)
               || Js.truthy (argv_ca argv)
            then
              if negb (Js.truthy (argv_crt argv))
                 || negb (Js.truthy (argv_key argv))
              then
                emit (ConsoleError (MissingRequiredArguments create_usage)) ;;;
                await_exit E 1
              else
                crt <- readX509File E (argv_crt argv) ;;
                key <- readX509File E (argv_key argv) ;;
                ca <- (if Js.truthy (argv_ca argv)
                       then readX509File E (argv_ca argv)
                       else ret "") ;;
                call (Api (Put cn crt key ca)) (put certs cn crt key ca)
            else
              call (Api (Create cn)) (create certs cn)) ;;
         match cert with
         | None => await_exit E 1
         | Some cert => emit (ConsoleLog (Success cn (uid cert) "created"))
         end
     | _ =>
         emit (ConsoleError
                 (InvalidNumberOfArguments "`now certs create <cn>`")) ;;;
         await_exit E 1
     end
   else if Js.strict_eq "renew" subcommand then
     if negb (List.length args =? 1) then
       emit (ConsoleError
               (InvalidNumberOfArguments "`now certs renew <id | cn>`")) ;;;
       await_exit E 1
     else
       cert <- getCertIdCn certs (nth_error args 0) currentTeam user ;;
       match cert with
       | None => await_exit E 1
       | Some cert =>
           yes <- readConfirmation E cert renewed ;;
           if negb yes then
             emit (ConsoleError UserAbort) ;;; await_exit E 0
           else
             call (Api (Renew (cn cert))) (renew certs (cn cert)) ;;;
             emit (ConsoleLog (Success (cn cert) (uid cert) "renewed"))
       end
   else if Js.strict_eq "replace" subcommand then
     if negb (Js.truthy (argv_crt argv)) || negb (Js.truthy (argv_key argv))
     then
       emit (ConsoleError (InvalidNumberOfArguments replace_usage)) ;;;
       await_exit E 1
     else
       crt <- readX509File E (argv_crt argv) ;;
       key <- readX509File E (argv_key argv) ;;
       ca <- (if Js.truthy (argv_ca argv)
              then readX509File E (argv_ca argv)
              else ret "") ;;
       cert <- getCertIdCn certs (nth_error args 0) currentTeam user ;;
       match cert with
       | None => await_exit E 1
       | Some cert =>
           yes <- readConfirmation E cert replaced ;;
           if negb yes then
             emit (ConsoleError UserAbort) ;;; await_exit E 0
           else
             call (Api (Put (cn cert) crt key ca))
                  (put certs (cn cert) crt key ca) ;;;
             emit (ConsoleLog (Success (cn cert) (uid cert) "replaced"))
       end
   else if Js.strict_eq "rm" subcommand || Js.strict_eq "remove" subcommand
   then
     if negb (List.length args =? 1) then
       emit (ConsoleError
               (InvalidNumberOfArguments "`now certs rm <id | cn>`")) ;;;
       await_exit E 1
     else
       cert <- getCertIdCn certs (nth_error args 0) currentTeam user ;;
       match cert with
       | None => await_exit E 1
       | Some cert =>
           yes <- readConfirmation E cert removed ;;
           if negb yes then
             emit (ConsoleError UserAbort) ;;; await_exit E 0
           else
             call (Api (Delete (cn cert))) (delete certs (cn cert)) ;;;
             emit (ConsoleLog (Success (cn cert) (uid cert) "removed"))
       end
   else
     emit (ConsoleError InvalidSubcommand) ;;;
     help ;;;
     exit E 1) ;;;
  call (Api Close) (close certs).

Definition main (E : Env) (ctx : Ctx) : M unit :=
  let parsed := ctx_argv ctx in
  let argv :=
    mkArgv (tl (argv_ parsed)) (argv_crt parsed) (argv_key parsed)
           (argv_ca parsed) (argv_help parsed) (argv_debug parsed) in
  let G :=
    mkGlobals argv (argv_debug argv) (ctx_apiUrl ctx)
              (nth_error (argv_ argv) 0) in
  (if argv_help argv || negb (Js.truthy (subcommand G)) then
     help ;;; await_exit E 0
   else ret tt) ;;;
  match find (fun item => String.eqb (provider item) "sh") (credentials ctx)
  with
  | None => throw "TypeError"
  | Some item =>
      try_catch (run E G (token item) (sh ctx))
                (fun err => emit (HandleError err) ;;; exit E 1)
  end.

(** [module.exports] *)
Definition module_exports (E : Env) (ctx : Ctx) : M unit :=
  try_catch (main E ctx)
            (fun err => emit (HandleError err) ;;;
                        emit (ProcessExit 1) ;;; halt).

(** ** Observations on a trace *)

Definition isClose (e : event) : bool :=
  match e with Api Close => true | _ => false end.

Definition isExit (e : event) : bool :=
  match e with Exit _ | ProcessExit _ => true | _ => false end.

Definition isApi (e : event) : bool :=
  match e with Api _ => true | _ => false end.

Definition isReadFile (e : event) : bool :=
  match e with ReadFile _ => true | _ => false end.

(** The calls that change something on the remote side. *)
Definition isMutation (e : event) : bool :=
  match e with
  | Api (Create _) | Api (Put _ _ _ _) | Api (Renew _) | Api (Delete _) => true
  | _ => false
  end.

(** What the command itself prints. *)
Definition isPrint (e : event) : bool :=
  match e with
  | ConsoleError _ | ConsoleLog _ | StdoutWrite _ | HelpText => true
  | _ => false
  end.

Definition count (p : event -> bool) (t : trace) : nat :=
  List.length (filter p t).

Fixpoint lastEvent (t : trace) : option event :=
  match t with
  | [] => None
  | [e] => Some e
  | _ :: t' => lastEvent t'
  end.

(** The certificates of the table rows written, in the order written. *)
Definition tableRows (t : trace) : list Cert :=
  flat_map (fun e => match e with
                     | StdoutWrite (TableRow c _) => [c]
                     | _ => []
                     end) t.

(** The [cn] handed to a call of [renew], [put] or [delete]. *)
Definition mutatedCn (e : event) : option string :=
  match e with
  | Api (Put cn _ _ _) | Api (Renew cn) | Api (Delete cn) => Some cn
  | _ => None
  end.

(** The subcommands the dispatcher knows. *)
Definition recognised (sub : Js.value) : bool :=
  existsb (fun s => Js.strict_eq s sub)
          ["ls"; "list"; "create"; "renew"; "replace"; "rm"; "remove"].

(** [cert.uid === idOrCn || cert.cn === idOrCn] *)
Definition matches (idOrCn : Js.value) (cert : Cert) : bool :=
  Js.strict_eq (uid cert) idOrCn || Js.strict_eq (cn cert) idOrCn.

(** Further observations, for the behaviour of whole runs. *)

Definition isLs (e : event) : bool :=
  match e with Api Ls => true | _ => false end.

Definition isConstruct (e : event) : bool :=
  match e with Construct _ _ _ _ => true | _ => false end.

Definition isResume (e : event) : bool :=
  match e with StdinResume => true | _ => false end.

Definition isPause (e : event) : bool :=
  match e with StdinPause => true | _ => false end.

Definition isSuccess (e : event) : bool :=
  match e with ConsoleLog (Success _ _ _) => true | _ => false end.

(** [after p q seen t]: every event of [t] that satisfies [q] has an
    earlier event that satisfies [p] ([seen]: one came before [t]). *)
Fixpoint after (p q : event -> bool) (seen : bool) (t : trace) : bool :=
  match t with
  | [] => true
  | e :: t' => (negb (q e) || seen) && after p q (seen || p e) t'
  end.

(** The widths of the table rows written. *)
Definition rowWidths (t : trace) : list nat :=
  flat_map (fun e => match e with
                     | StdoutWrite (TableRow _ w) => [w]
                     | _ => []
                     end) t.

(** The globals [main] sets from its context. *)
Definition mainGlobals (ctx : Ctx) : Globals :=
  let parsed := ctx_argv ctx in
  let argv :=
    mkArgv (tl (argv_ parsed)) (argv_crt parsed) (argv_key parsed)
           (argv_ca parsed) (argv_help parsed) (argv_debug parsed) in
  mkGlobals argv (argv_debug argv) (ctx_apiUrl ctx)
            (nth_error (argv_ argv) 0).



(** What [create] does once its call has answered. *)
Definition afterCreate (cn : string) (r : result (option Cert)) : trace :=
  match r with
  | Ok (Some cert) =>
      [ConsoleLog (Success cn (uid cert) "created"); Api Close]
  | Ok None => [Exit 1]
  | Err _ => []
  end.


(** The mutating call of a subcommand on the certificate named [cn]:
    [renew] for renew, [put] for replace, [delete] for rm. *)
Definition mutationFor (sub : Js.value) (cn : string) (e : event) : Prop :=
  (sub = Some "renew" /\ e = Api (Renew cn))
  \/ (sub = Some "replace"
      /\ exists crt key ca, e = Api (Put cn crt key ca))
  \/ ((sub = Some "rm" \/ sub = Some "remove") /\ e = Api (Delete cn)).

(** A runtime whose [toLowerCase] takes "y" and "Y", and nothing else,
    to "y". *)
Definition lowersToY (lower : Js.units -> Js.units) : Prop :=
  forall s, lower s = Js.fromString "y"
            <-> s = Js.fromString "y" \/ s = Js.fromString "Y".

(** A comparator that orders its arguments: any two compare one way or
    the other, and the order is transitive. *)
Definition consistent (cmp : string -> string -> Z) : Prop :=
  (forall a b, (cmp a b <= 0)%Z \/ (cmp b a <= 0)%Z) /\
  (forall a b c, (cmp a b <= 0)%Z -> (cmp b c <= 0)%Z -> (cmp a c <= 0)%Z).

(** ** A sample account, for running the command *)

Module Sample.

(** Comparison by code units, a [localeCompare] without collation. *)
Definition codeUnitCompare (a b : string) : Z :=
  match String.compare a b with
  | Lt => (-1)%Z
  | Eq => 0%Z
  | Gt => 1%Z
  end.

(** Lower case below U+0100 (A-Z, and U+00C0 to U+00DE without the
    multiplication sign U+00D7); code units above are left alone. *)
Definition lowerUnit (c : N) : N :=
  (if ((0x41 <=? c) && (c <=? 0x5A))
      || ((0xC0 <=? c) && (c <=? 0xDE) && negb (c =? 0xD7))
   then c + 32
   else c)%N.

(** A [toLowerCase] for text without letters above U+00FF. *)
Definition lower (s : Js.units) : Js.units := map lowerUnit s.

Definition b_com : Cert := mkCert "uid-b" "b.com" 10 20 true.
Definition a_com : Cert := mkCert "uid-a" "a.com" 11 21 false.
Definition c_com : Cert := mkCert "uid-c" "c.com" 12 22 true.

Definition listed : list Cert := [b_com; a_com; c_com].

(** A client whose [create] reports the certificate as issued already. *)
Definition client : NowCerts :=
  mkNowCerts (Ok listed)
             (fun _ => Ok None)
             (fun cn _ _ _ => Ok (Some (mkCert "uid-new" cn 0 0 false)))
             (fun _ => Ok tt)
             (fun _ => Ok tt)
             (Ok tt).

(** A client whose [put] answers nothing either. *)
Definition silent : NowCerts :=
  mkNowCerts (Ok listed) (fun _ => Ok None) (fun _ _ _ _ => Ok None)
             (fun _ => Ok tt) (fun _ => Ok tt) (Ok tt).

Definition env (answer : option string) : Env :=
  mkEnv (fun _ _ _ _ => client) (fun f => Ok f)
        (option_map Js.fromString answer)
        codeUnitCompare lower false false.

Definition silent_env : Env :=
  mkEnv (fun _ _ _ _ => silent) (fun f => Ok f) None
        codeUnitCompare lower false false.

(** A client whose [create] issues the certificate. *)
Definition issuing : NowCerts :=
  mkNowCerts (Ok listed)
             (fun cn => Ok (Some (mkCert "uid-new" cn 0 0 false)))
             (fun cn _ _ _ => Ok (Some (mkCert "uid-new" cn 0 0 false)))
             (fun _ => Ok tt) (fun _ => Ok tt) (Ok tt).

Definition issuing_env : Env :=
  mkEnv (fun _ _ _ _ => issuing) (fun f => Ok f) None
        codeUnitCompare lower false false.

(** The lower case of a text below U+0100. *)
Definition lowerText (s : string) : string :=
  string_of_list_ascii
    (map (fun c => ascii_of_N (lowerUnit (N_of_ascii c)))
         (list_ascii_of_string s)).

(** A collation: letters compare without regard to their case, as in
    the locales' [localeCompare], where "a" comes before "B". *)
Definition collate (a b : string) : Z :=
  codeUnitCompare (lowerText a) (lowerText b).

Definition B_com : Cert := mkCert "uid-B" "B.com" 13 23 true.

(** An account listing B.com before a.com, on a collating runtime. *)
Definition collating_env : Env :=
  mkEnv (fun _ _ _ _ =>
           mkNowCerts (Ok [B_com; a_com]) (fun _ => Ok None)
                      (fun _ _ _ _ => Ok None) (fun _ => Ok tt)
                      (fun _ => Ok tt) (Ok tt))
        (fun f => Ok f) None collate lower false false.

Definition alice : Sh := mkSh None (mkUser (Some "alice") None).

Definition flags (crt key : Js.value) (positional : list string) : Argv :=
  mkArgv positional crt key None false false.

(** The globals [main] sets for [now certs <positional>]. *)
Definition globals (crt key : Js.value) (positional : list string)
  : Globals :=
  mkGlobals (flags crt key positional) false "https://api.zeit.co"
            (nth_error positional 0).

Definition ctx (positional : list string) : Ctx :=
  mkCtx (flags None None ("certs" :: positional)) "https://api.zeit.co"
        [mkCredential "sh" "token"] alice.

End Sample.

(** * Proofs *)

(** ** Unfolding the dispatcher into its paths *)

Ltac inner_destruct :=
  match goal with
  | |- context [match ?x with _ => _ end] =>
      lazymatch x with
      | context [match _ with _ => _ end] => fail
      | _ => destruct x eqn:?
      end
  end.

Ltac unfold_run :=
  unfold run, getCertIdCn, readConfirmation, readX509File, await_exit, exit,
    help, emit, call, halt, throw, ret, bind; cbv zeta.

(** Evaluates [===] between two literals. *)
Ltac eval_strict_eq :=
  repeat match goal with
    | |- context [Js.strict_eq ?a (Some ?b)] =>
        let v := eval vm_compute in (Js.strict_eq a (Some b)) in
        lazymatch v with
        | true => change (Js.strict_eq a (Some b)) with true
        | false => change (Js.strict_eq a (Some b)) with false
        end
    end.

Ltac reduce := cbn [app fst snd orb andb negb].

Lemma forEach_emit {A} (g : A -> event) (l : list A) :
  forEach l (fun x => ([g x], Ret tt)) = (map g l, Ret tt).
Proof.
  induction l as [|x l IH]; [reflexivity|].
  cbn [forEach]. unfold bind. rewrite IH. reflexivity.
Qed.

(** Every path of [run], one goal each. *)
Ltac run_paths :=
  unfold_run; repeat (reduce; try rewrite forEach_emit; inner_destruct);
  reduce.

Lemma lastEvent_snoc (t : trace) (e : event) : lastEvent (t ++ [e]) = Some e.
Proof.
  induction t as [|x t IH]; [reflexivity|].
  cbn [app lastEvent]. destruct (t ++ [e]) eqn:Ht; [|exact IH].
  destruct t; discriminate.
Qed.

Lemma filter_matches_undefined (l : list Cert) :
  filter (fun cert => Js.strict_eq (uid cert) None
                      || Js.strict_eq (cn cert) None) l = [].
Proof. induction l as [|c l IH]; [reflexivity|exact IH]. Qed.

(** ** Arity and flag validation of [create] and [replace] *)

(** C6: [create] with zero or with two or more positional arguments,
    whatever the certificate flags, prints the usage error, exits 1 and
    calls nothing on the API client. *)
Theorem create_requires_one_argument (E : Env) (G : Globals)
    (token : string) (sh : Sh) :
  subcommand G = Some "create" ->
  List.length (tl (argv_ (argv G))) <> 1 ->
  let t := fst (run E G token sh) in
  t = [Construct (apiUrl G) token (debug G) (currentTeam sh);
       ConsoleError (InvalidNumberOfArguments "`now certs create <cn>`");
       Exit 1]
  /\ exitCode t = 1
  /\ existsb isApi t = false.
Proof.
  intros Hs Ha. cbv zeta. unfold_run. rewrite Hs. eval_strict_eq. reduce.
  destruct (tl (argv_ (argv G))) as [|a [|b l]]; cbn [List.length] in Ha;
    try lia; destruct (exit_sync E); reduce; repeat split.
Qed.

Lemma create_requires_one_argument_witness :
  let t := fst (run (Sample.env None)
                    (Sample.globals (Some "a.crt") (Some "a.key")
                                    ["create"; "a.com"; "b.com"])
                    "token" Sample.alice) in
  exitCode t = 1 /\ existsb isApi t = false.
Proof.
  apply (create_requires_one_argument (Sample.env None)
           (Sample.globals (Some "a.crt") (Some "a.key")
                           ["create"; "a.com"; "b.com"])
           "token" Sample.alice).
  - reflexivity.
  - simpl. lia.
Defined.

(** C7, as the code has it: [create] with exactly one of [--crt] and
    [--key] holding a value, and [replace] with [--crt] or [--key]
    absent or empty, fail validation: exit 1, no file read, no API
    call.  The flags are tested for truthiness, so that a flag given
    the empty string counts as absent. *)
Theorem partial_cert_flags_rejected (E : Env) (G : Globals)
    (token : string) (sh : Sh) :
  (subcommand G = Some "create"
   /\ Js.truthy (argv_crt (argv G)) <> Js.truthy (argv_key (argv G)))
  \/ (subcommand G = Some "replace"
      /\ (Js.truthy (argv_crt (argv G)) = false
          \/ Js.truthy (argv_key (argv G)) = false)) ->
  let t := fst (run E G token sh) in
  exitCode t = 1
  /\ existsb isReadFile t = false
  /\ existsb isApi t = false.
Proof.
  intros [[Hs Hx]|[Hs Hx]]; cbv zeta; unfold_run; rewrite Hs; eval_strict_eq;
    reduce;
    destruct (Js.truthy (argv_crt (argv G))),
             (Js.truthy (argv_key (argv G)));
    try congruence; try (destruct Hx; discriminate); reduce;
    repeat (reduce; inner_destruct); reduce; repeat split.
Qed.

Lemma partial_cert_flags_rejected_witness :
  (let t := fst (run (Sample.env None)
                     (Sample.globals (Some "a.crt") None ["create"; "a.com"])
                     "token" Sample.alice) in
   exitCode t = 1 /\ existsb isReadFile t = false
   /\ existsb isApi t = false)
  /\ (let t := fst (run (Sample.env None)
                        (Sample.globals (Some "") None ["replace"; "a.com"])
                        "token" Sample.alice) in
      exitCode t = 1 /\ existsb isReadFile t = false
      /\ existsb isApi t = false).
Proof.
  split.
  - apply (partial_cert_flags_rejected (Sample.env None)
             (Sample.globals (Some "a.crt") None ["create"; "a.com"])
             "token" Sample.alice).
    left. split; [reflexivity|]. simpl. discriminate.
  - apply (partial_cert_flags_rejected (Sample.env None)
             (Sample.globals (Some "") None ["replace"; "a.com"])
             "token" Sample.alice).
    right. split; [reflexivity|]. left. reflexivity.
Defined.

(** C7 as stated fails: [create a.com --crt] with no value for the
    flag has [--crt] supplied and [--key] absent, yet no validation
    fails and the standard certificate is asked of the API. *)
Lemma create_with_empty_crt_calls_api :
  run Sample.issuing_env (Sample.globals (Some "") None ["create"; "a.com"])
      "token" Sample.alice
  = ([Construct "https://api.zeit.co" "token" false None;
      Api (Create "a.com");
      ConsoleLog (Success "a.com" "uid-new" "created");
      Api Close], Ret tt)
  /\ existsb isApi
       (fst (run Sample.issuing_env
                 (Sample.globals (Some "") None ["create"; "a.com"])
                 "token" Sample.alice)) = true
  /\ exitCode
       (fst (run Sample.issuing_env
                 (Sample.globals (Some "") None ["create"; "a.com"])
                 "token" Sample.alice)) <> 1.
Proof. split; [reflexivity|]. split; [reflexivity|]. simpl. discriminate. Qed.

(** C8: when the call that [create <cn>] makes on the client,
    [create] or [put], answers a falsy value, the command exits 1 and
    prints nothing of its own. *)
Theorem create_falsy_result_is_silent (E : Env) (G : Globals)
    (token : string) (sh : Sh) (cn : string) :
  let certs := newNowCerts E (apiUrl G) token (debug G) (currentTeam sh) in
  let t := fst (run E G token sh) in
  subcommand G = Some "create" ->
  tl (argv_ (argv G)) = [cn] ->
  existsb isApi t = true ->
  (forall x, In (Api (Create x)) t -> create certs x = Ok None) ->
  (forall x crt key ca, In (Api (Put x crt key ca)) t ->
                        put certs x crt key ca = Ok None) ->
  exitCode t = 1
  /\ existsb isPrint t = false
  /\ lastEvent t = Some (Exit 1).
Proof.
  cbv zeta. intros Hs Ha. unfold_run.
  rewrite Hs, Ha. eval_strict_eq. reduce.
  repeat (reduce; inner_destruct); reduce;
    cbn [existsb isApi orb]; intros Hapi Hc Hp; try discriminate Hapi;
    try (match goal with
         | H : create _ ?x = _ |- _ =>
             rewrite (Hc x ltac:(cbn [In]; tauto)) in H; discriminate H
         end);
    try (match goal with
         | H : put _ ?x ?a ?b ?k = _ |- _ =>
             rewrite (Hp x a b k ltac:(cbn [In]; tauto)) in H; discriminate H
         end);
    repeat split.
Qed.

Lemma create_falsy_result_is_silent_witness :
  let t := fst (run (Sample.env None)
                    (Sample.globals None None ["create"; "a.com"])
                    "token" Sample.alice) in
  exitCode t = 1 /\ existsb isPrint t = false /\ lastEvent t = Some (Exit 1).
Proof.
  apply (create_falsy_result_is_silent (Sample.env None)
           (Sample.globals None None ["create"; "a.com"])
           "token" Sample.alice "a.com"); try reflexivity.
  intros x crt key ca Hin. simpl in Hin.
  destruct Hin as [Hin|[Hin|[Hin|[]]]]; discriminate Hin.
Defined.

(** The same at the custom-certificate call. *)
Example create_put_falsy_result_is_silent :
  run Sample.silent_env
      (Sample.globals (Some "a.crt") (Some "a.key") ["create"; "a.com"])
      "token" Sample.alice
  = ([Construct "https://api.zeit.co" "token" false None;
      ReadFile "a.crt"; ReadFile "a.key";
      Api (Put "a.com" "a.crt" "a.key" ""); Exit 1], Halt).
Proof. reflexivity. Qed.

(** C9: [replace] does not count its positional arguments.  With
    [--crt] and [--key] and no positional argument the files are read
    and the list is fetched; resolution of [undefined] then fails with
    the not-found error and exit 1. *)
Theorem replace_does_not_check_arity (E : Env) (G : Globals)
    (token : string) (sh : Sh) (crtFile keyFile crt key : string)
    (l : list Cert) :
  let certs := newNowCerts E (apiUrl G) token (debug G) (currentTeam sh) in
  let t := fst (run E G token sh) in
  subcommand G = Some "replace" ->
  tl (argv_ (argv G)) = [] ->
  argv_crt (argv G) = Some crtFile -> Js.truthy (Some crtFile) = true ->
  argv_key (argv G) = Some keyFile -> Js.truthy (Some keyFile) = true ->
  readFileSync E crtFile = Ok crt ->
  readFileSync E keyFile = Ok key ->
  (forall caFile, argv_ca (argv G) = Some caFile ->
                  exists ca, readFileSync E caFile = Ok ca) ->
  ls certs = Ok l ->
  (exists reads,
      forallb isReadFile reads = true /\
      t = Construct (apiUrl G) token (debug G) (currentTeam sh)
          :: ReadFile crtFile :: ReadFile keyFile
          :: reads
          ++ [Api Ls;
              ConsoleError (NoCertificateFound None
                              (scopeName (currentTeam sh) (user sh)));
              Exit 1])
  /\ exitCode t = 1
  /\ existsb isMutation t = false.
Proof.
  cbv zeta. intros Hs Ha Hcrt Tcrt Hkey Tkey Rcrt Rkey Rca Hls. unfold_run.
  rewrite Hs, Ha, Hcrt, Hkey, Tcrt, Tkey, Rcrt, Rkey, Hls.
  eval_strict_eq. reduce. cbn [nth_error].
  rewrite filter_matches_undefined. cbn [nth_error]. reduce.
  destruct (Js.truthy (argv_ca (argv G))) eqn:Tca; reduce.
  - destruct (argv_ca (argv G)) as [caFile|] eqn:Hca; [|discriminate Tca].
    destruct (Rca caFile eq_refl) as [ca Hread]. rewrite Hread. reduce.
    destruct (exit_sync E); reduce;
      (split; [exists [ReadFile caFile]; split; reflexivity
              | split; reflexivity]).
  - destruct (exit_sync E); reduce;
      (split; [exists []; split; reflexivity | split; reflexivity]).
Qed.

Lemma replace_does_not_check_arity_witness :
  let t := fst (run (Sample.env None)
                    (Sample.globals (Some "a.crt") (Some "a.key") ["replace"])
                    "token" Sample.alice) in
  (exists reads,
      forallb isReadFile reads = true /\
      t = Construct "https://api.zeit.co" "token" false None
          :: ReadFile "a.crt" :: ReadFile "a.key"
          :: reads
          ++ [Api Ls;
              ConsoleError (NoCertificateFound None (Some "alice"));
              Exit 1])
  /\ exitCode t = 1
  /\ existsb isMutation t = false.
Proof.
  apply (replace_does_not_check_arity (Sample.env None)
           (Sample.globals (Some "a.crt") (Some "a.key") ["replace"])
           "token" Sample.alice "a.crt" "a.key" "a.crt" "a.key"
           Sample.listed); try reflexivity.
  intros caFile H. simpl in H. discriminate H.
Defined.

(** ** Resolution and confirmation *)

Lemma nth_error_filter_find {A} (p : A -> bool) (l : list A) :
  nth_error (filter p l) 0 = find p l.
Proof.
  induction l as [|x l IH]; [reflexivity|].
  cbn [filter find]. destruct (p x); [reflexivity|exact IH].
Qed.

(** Splits a membership in a path's trace into its events. *)
Ltac in_trace H :=
  cbn [In] in H;
  repeat match type of H with
    | _ \/ _ => destruct H as [H|H]
    | In _ (_ ++ _) => apply in_app_or in H
    | In _ (map _ _) => apply in_map_iff in H; destruct H as [? [H ?]]
    | In _ (_ :: _) => cbn [In] in H
    | In _ [] => contradiction H
    | False => contradiction H
    end.




(** A renewal declined with "n": exit code 0 and no call of [renew]. *)
Example renew_declined :
  let t := fst (run (Sample.env (Some "n"))
                    (Sample.globals None None ["renew"; "uid-a"])
                    "token" Sample.alice) in
  exitCode t = 0 /\ count isMutation t = 0.
Proof. split; reflexivity. Qed.

(** [getCertIdCn] fetches the list and answers its first entry whose
    [uid] or [cn] is the argument. *)
Lemma getCertIdCn_first_match (certs : NowCerts) (idOrCn : Js.value)
    (team : option Team) (user : User) (l : list Cert) :
  ls certs = Ok l ->
  snd (getCertIdCn certs idOrCn team user) = Ret (find (matches idOrCn) l)
  /\ exists t, fst (getCertIdCn certs idOrCn team user) = Api Ls :: t.
Proof.
  intros Hl. unfold getCertIdCn, call, bind, emit, ret. rewrite Hl.
  rewrite nth_error_filter_find. fold (matches idOrCn).
  destruct (find (matches idOrCn) l); reduce; split; eauto.
Qed.

(** C5: [rm <idOrCn>] fetches the full list and resolves to its first
    entry whose [uid] or [cn] is the argument; when no entry matches,
    the command exits 1 and [delete] is not called. *)
Theorem rm_resolves_or_fails (E : Env) (G : Globals) (token : string)
    (sh : Sh) (idOrCn : string) (l : list Cert) :
  let certs := newNowCerts E (apiUrl G) token (debug G) (currentTeam sh) in
  let t := fst (run E G token sh) in
  subcommand G = Some "rm" \/ subcommand G = Some "remove" ->
  tl (argv_ (argv G)) = [idOrCn] ->
  ls certs = Ok l ->
  snd (getCertIdCn certs (Some idOrCn) (currentTeam sh) (user sh))
    = Ret (find (matches (Some idOrCn)) l)
  /\ (exists t', t = Construct (apiUrl G) token (debug G) (currentTeam sh)
                     :: Api Ls :: t')
  /\ (forall c, find (matches (Some idOrCn)) l = Some c ->
                In (StdoutWrite (ConfirmRow c)) t)
  /\ ((forall c, In c l -> uid c <> idOrCn /\ cn c <> idOrCn) ->
      exitCode t = 1
      /\ existsb isMutation t = false
      /\ lastEvent t = Some (Exit 1)).
Proof.
  cbv zeta. intros Hs Ha Hl.
  split; [exact (proj1 (getCertIdCn_first_match _ _ _ _ _ Hl))|].
  assert (Hnone : (forall c, In c l -> uid c <> idOrCn /\ cn c <> idOrCn) ->
                  find (matches (Some idOrCn)) l = None).
  { intros Hno. destruct (find (matches (Some idOrCn)) l) as [c|] eqn:Hf;
      [|reflexivity].
    apply find_some in Hf. destruct Hf as [Hin Hm]. exfalso.
    destruct (Hno c Hin) as [Hu Hc]. unfold matches, Js.strict_eq in Hm.
    apply orb_prop in Hm. destruct Hm as [Hm|Hm];
      apply String.eqb_eq in Hm; contradiction. }
  revert Hnone.
  unfold_run. destruct Hs as [Hs|Hs]; rewrite Hs, Ha, Hl; eval_strict_eq;
    reduce; cbn [List.length Nat.eqb]; reduce;
    change (nth_error [idOrCn] 0) with (Some idOrCn);
    rewrite nth_error_filter_find; fold (matches (Some idOrCn));
    destruct (find (matches (Some idOrCn)) l) as [c|] eqn:Hf; intros Hnone;
    repeat (reduce; inner_destruct); reduce;
    (split; [eexists; reflexivity|]);
    (split; [intros c' Hc'; inversion Hc'; subst; cbn [In]; tauto|]);
    intros Hno; try (specialize (Hnone Hno); discriminate Hnone);
    repeat split.
Qed.

Lemma rm_resolves_or_fails_witness :
  let t := fst (run (Sample.env (Some "y"))
                    (Sample.globals None None ["rm"; "d.com"])
                    "token" Sample.alice) in
  exitCode t = 1 /\ existsb isMutation t = false
  /\ lastEvent t = Some (Exit 1).
Proof.
  apply (rm_resolves_or_fails (Sample.env (Some "y"))
           (Sample.globals None None ["rm"; "d.com"])
           "token" Sample.alice "d.com" Sample.listed).
  - left. reflexivity.
  - reflexivity.
  - reflexivity.
  - intros c Hc. simpl in Hc.
    destruct Hc as [Hc|[Hc|[Hc|Hc]]]; try contradiction; subst c;
      split; discriminate.
Defined.

(** C10: the mutating call of [renew] is [renew], of [replace] [put],
    of [rm] [delete], and none other is made; it is handed the [cn] of
    the certificate the argument resolved to, not the argument; and a
    run that returns has made that call. *)
Theorem mutation_receives_resolved_cn (E : Env) (G : Globals)
    (token : string) (sh : Sh) :
  let certs := newNowCerts E (apiUrl G) token (debug G) (currentTeam sh) in
  let r := run E G token sh in
  let idOrCn := nth_error (tl (argv_ (argv G))) 0 in
  subcommand G = Some "renew" \/ subcommand G = Some "replace"
  \/ subcommand G = Some "rm" \/ subcommand G = Some "remove" ->
  (forall e, In e (fst r) -> isMutation e = true ->
     exists l c, ls certs = Ok l
                 /\ find (matches idOrCn) l = Some c
                 /\ mutationFor (subcommand G) (cn c) e)
  /\ (snd r = Ret tt ->
      exists l c e, ls certs = Ok l
                    /\ find (matches idOrCn) l = Some c
                    /\ In e (fst r)
                    /\ mutationFor (subcommand G) (cn c) e).
Proof.
  cbv zeta. intros Hs. unfold_run. unfold mutationFor.
  destruct Hs as [Hs|[Hs|[Hs|Hs]]]; rewrite Hs; eval_strict_eq; reduce;
    fold (matches (nth_error (tl (argv_ (argv G))) 0));
    repeat (reduce; inner_destruct); reduce;
    rewrite ?nth_error_filter_find in *;
    (split;
     [ intros ev Hin Hm; in_trace Hin; subst ev;
       first
         [ discriminate Hm
         | do 2 eexists; split; [reflexivity|]; split; [eassumption|];
           first [ left; split; reflexivity
                 | right; left; split; [reflexivity|];
                   do 3 eexists; reflexivity
                 | right; right; split; [|reflexivity]; tauto ] ]
     | intros Hret;
       first
         [ discriminate Hret
         | match goal with
           | Hf : find _ ?l = Some ?c
             |- context [?ev :: ConsoleLog (Success _ _ _) :: _] =>
               exists l, c, ev;
               split; [reflexivity|]; split; [exact Hf|];
               split; [cbn [In]; tauto|];
               first [ left; split; reflexivity
                     | right; left; split; [reflexivity|];
                       do 3 eexists; reflexivity
                     | right; right; split; [|reflexivity]; tauto ]
           end ] ]).
Qed.

Lemma mutation_receives_resolved_cn_witness :
  exists e, In e (fst (run (Sample.env (Some "y"))
                           (Sample.globals None None ["rm"; "uid-a"])
                           "token" Sample.alice))
            /\ e = Api (Delete "a.com").
Proof.
  destruct (proj2 (mutation_receives_resolved_cn (Sample.env (Some "y"))
                     (Sample.globals None None ["rm"; "uid-a"])
                     "token" Sample.alice
                     (or_intror (or_intror (or_introl eq_refl))))
                  eq_refl)
    as [l [c [e [Hl [Hc [He Hm]]]]]].
  exists e. split; [exact He|].
  injection Hl as <-. injection Hc as <-.
  destruct Hm as [[Hsub _]|[[Hsub _]|[_ Hm]]];
    [discriminate Hsub|discriminate Hsub|exact Hm].
Defined.

(** A [uid] on the command line reaches the API as the [cn]. *)
Example rm_by_uid_deletes_by_cn :
  filter isMutation
    (fst (run (Sample.env (Some "y"))
              (Sample.globals None None ["rm"; "uid-a"])
              "token" Sample.alice))
  = [Api (Delete "a.com")].
Proof. reflexivity. Qed.

(** ** Closing the client *)

Lemma existsb_rows (p : event -> bool) (w : nat) (l : list Cert)
    (t : trace) :
  (forall c, p (StdoutWrite (TableRow c w)) = false) ->
  existsb p (map (fun x => StdoutWrite (TableRow x w)) l ++ t) = existsb p t.
Proof.
  intros Hp. induction l as [|c l IH]; [reflexivity|].
  cbn [map app existsb]. rewrite Hp. exact IH.
Qed.

(** From "no test of the dispatcher succeeded" to "not recognised". *)
Ltac unrecognised :=
  repeat match goal with
    | H : orb _ _ = false |- _ => apply orb_false_elim in H; destruct H
    end;
  let Hr := fresh "Hr" in
  intros Hr; unfold recognised in Hr; cbn [existsb] in Hr;
  repeat match goal with
    | H : Js.strict_eq _ _ = false |- _ => rewrite H in Hr; clear H
    end;
  discriminate Hr.

(** C1, as the code has it: a run that returns has called [close()]
    last; a run that neither throws nor asks for an exit code, and whose
    prompt was answered, returns; and in a recognised subcommand a run
    that asks for an exit code does not call [close()]. *)
Theorem close_only_when_run_returns (E : Env) (G : Globals)
    (token : string) (sh : Sh) :
  let r := run E G token sh in
  (snd r = Ret tt -> lastEvent (fst r) = Some (Api Close))
  /\ ((forall e, snd r <> Throw e) ->
      existsb isExit (fst r) = false ->
      (In StdinResume (fst r) -> In StdinPause (fst r)) ->
      snd r = Ret tt)
  /\ (recognised (subcommand G) = true ->
      existsb isExit (fst r) = true ->
      existsb isClose (fst r) = false).
Proof.
  cbv zeta. run_paths; (split; [|split]).
  all: try (intros Hret; first [discriminate Hret | reflexivity
              | rewrite ?app_comm_cons; apply lastEvent_snoc]).
  all: try (intros Hthrow Hexit Hans;
            cbn [existsb isExit orb] in Hexit;
            rewrite ?existsb_rows in Hexit by reflexivity;
            cbn [existsb isExit orb] in Hexit;
            first [ match goal with
                    | |- Ret ?u = Ret tt => destruct u; reflexivity
                    end
                  | exfalso; eapply Hthrow; reflexivity
                  | discriminate Hexit
                  | exfalso;
                    assert (Hp : In StdinPause _)
                      by (apply Hans; cbn [In]; tauto);
                    in_trace Hp; discriminate Hp ]).
  all: try (cbn [existsb isExit isClose orb];
            rewrite ?existsb_rows by reflexivity;
            cbn [existsb isExit isClose orb]; intros Hr Hexit;
            first [reflexivity | discriminate Hexit]).
  all: unrecognised.
Qed.

Lemma close_only_when_run_returns_witness :
  lastEvent (fst (run (Sample.env None) (Sample.globals None None ["ls"])
                      "token" Sample.alice)) = Some (Api Close)
  /\ snd (run (Sample.env (Some "y"))
              (Sample.globals None None ["renew"; "a.com"])
              "token" Sample.alice) = Ret tt
  /\ existsb isClose
       (fst (run (Sample.env (Some "n"))
                 (Sample.globals None None ["renew"; "a.com"])
                 "token" Sample.alice)) = false.
Proof.
  split; [|split].
  - apply (proj1 (close_only_when_run_returns (Sample.env None)
                    (Sample.globals None None ["ls"])
                    "token" Sample.alice)).
    reflexivity.
  - apply (proj1 (proj2 (close_only_when_run_returns (Sample.env (Some "y"))
                           (Sample.globals None None ["renew"; "a.com"])
                           "token" Sample.alice))).
    + intros e. discriminate.
    + reflexivity.
    + intros _. simpl. tauto.
  - apply (proj2 (proj2 (close_only_when_run_returns (Sample.env (Some "n"))
                           (Sample.globals None None ["renew"; "a.com"])
                           "token" Sample.alice)));
      reflexivity.
Defined.

(** C1 as stated fails: a validation failure leaves through
    [return exit(1)], which throws nothing and never reaches [close()]. *)
Lemma validation_failure_skips_close :
  let r := run (Sample.env None) (Sample.globals None None ["create"])
               "token" Sample.alice in
  (forall e, snd r <> Throw e)
  /\ fst r = [Construct "https://api.zeit.co" "token" false None;
              ConsoleError (InvalidNumberOfArguments "`now certs create <cn>`");
              Exit 1]
  /\ ~ In (Api Close) (fst r).
Proof.
  cbv zeta. split; [intros e; discriminate|]. split; [reflexivity|].
  intros H. vm_compute in H. intuition discriminate.
Qed.

(** So do a declined confirmation and a failed resolution. *)
Example user_abort_skips_close :
  run (Sample.env (Some "n")) (Sample.globals None None ["rm"; "a.com"])
      "token" Sample.alice
  = ([Construct "https://api.zeit.co" "token" false None;
      Api Ls;
      StdoutWrite (ConfirmMessage removed);
      StdoutWrite (ConfirmRow Sample.a_com);
      StdoutWrite AreYouSure; StdinResume; StdinPause;
      ConsoleError UserAbort; Exit 0], Halt).
Proof. reflexivity. Qed.

Example not_found_skips_close :
  run (Sample.env None) (Sample.globals None None ["renew"; "d.com"])
      "token" Sample.alice
  = ([Construct "https://api.zeit.co" "token" false None;
      Api Ls;
      ConsoleError (NoCertificateFound (Some "d.com") (Some "alice"));
      Exit 1], Halt).
Proof. reflexivity. Qed.

(** ** Exit codes of the subcommand dispatch *)

Ltac unfold_main :=
  unfold module_exports, main, try_catch; cbv zeta;
  cbn [subcommand argv argv_ argv_crt argv_key argv_ca argv_help argv_debug
       debug apiUrl].




(** ** The table of [ls] *)

Section SortFacts.
Context {A : Type} (cmp : A -> A -> Z).

Let le (a b : A) : Prop := (cmp a b <= 0)%Z.

Lemma insert_perm (x : A) (l : list A) :
  Permutation (x :: l) (Js.insert cmp x l).
Proof.
  induction l as [|y l IH]; cbn [Js.insert]; [apply Permutation_refl|].
  destruct (cmp x y <=? 0)%Z; [apply Permutation_refl|].
  eapply perm_trans; [apply perm_swap|]. apply perm_skip. exact IH.
Qed.

Lemma sort_perm (l : list A) : Permutation l (Js.sort cmp l).
Proof.
  induction l as [|x l IH]; cbn [Js.sort]; [apply perm_nil|].
  eapply perm_trans; [apply perm_skip; exact IH|]. apply insert_perm.
Qed.

Hypothesis cmp_total : forall a b, le a b \/ le b a.
Hypothesis cmp_trans : forall a b c, le a b -> le b c -> le a c.

Lemma insert_sorted (x : A) (l : list A) :
  StronglySorted le l -> StronglySorted le (Js.insert cmp x l).
Proof.
  induction 1 as [|y l Hl IH Hy]; cbn [Js.insert].
  - constructor; constructor.
  - destruct (cmp x y <=? 0)%Z eqn:Hxy.
    + apply Z.leb_le in Hxy. constructor; [constructor; assumption|].
      constructor; [exact Hxy|].
      eapply Forall_impl; [|exact Hy]. intros z Hz.
      exact (cmp_trans x y z Hxy Hz).
    + apply Z.leb_gt in Hxy. constructor; [exact IH|].
      assert (Hyx : le y x).
      { destruct (cmp_total x y) as [H|H]; [unfold le in H; lia|exact H]. }
      eapply Permutation_Forall; [apply insert_perm|].
      constructor; assumption.
Qed.

Lemma sort_sorted (l : list A) : StronglySorted le (Js.sort cmp l).
Proof.
  induction l as [|x l IH]; cbn [Js.sort]; [constructor|].
  apply insert_sorted. exact IH.
Qed.
End SortFacts.

Lemma tableRows_rows (w : nat) (l : list Cert) (t : trace) :
  tableRows (map (fun x => StdoutWrite (TableRow x w)) l ++ t)
  = l ++ tableRows t.
Proof.
  induction l as [|c l IH]; [reflexivity|].
  cbn [map app]. unfold tableRows in *. cbn [flat_map app].
  rewrite IH. reflexivity.
Qed.

(** C3, as the code has it: the rows [ls] writes are the certificates
    the API listed, in ascending order of [cn] under the runtime's
    [localeCompare], a consistent comparator, whatever the order the
    API listed them in. *)
Theorem ls_rows_sorted_by_cn (E : Env) (G : Globals) (token : string)
    (sh : Sh) (l : list Cert) :
  let certs := newNowCerts E (apiUrl G) token (debug G) (currentTeam sh) in
  let rows := tableRows (fst (run E G token sh)) in
  consistent (localeCompare E) ->
  subcommand G = Some "ls" \/ subcommand G = Some "list" ->
  tl (argv_ (argv G)) = [] ->
  ls certs = Ok l ->
  StronglySorted (fun a b => (localeCompare E (cn a) (cn b) <= 0)%Z) rows
  /\ Permutation l rows.
Proof.
  cbv zeta. intros [Htot Htrans] Hs Ha Hl.
  assert (Hrows : tableRows (fst (run E G token sh))
                  = Js.sort (fun a b => localeCompare E (cn a) (cn b)) l).
  { unfold_run. destruct Hs as [Hs|Hs]; rewrite Hs, Ha, Hl; eval_strict_eq;
      reduce; cbn [List.length Nat.eqb]; reduce;
      (destruct l as [|c l'];
       [ change (0 <? List.length (@nil Cert)) with false; cbv iota;
         repeat (reduce; inner_destruct); reduce; reflexivity
       | change (0 <? List.length (c :: l')) with true; cbv iota;
         rewrite forEach_emit;
         repeat (reduce; inner_destruct); reduce;
         cbn [tableRows flat_map app]; fold tableRows;
         rewrite tableRows_rows; cbn [tableRows flat_map];
         apply app_nil_r ]). }
  rewrite Hrows. split.
  - apply sort_sorted.
    + intros a b. apply Htot.
    + intros a b c. apply Htrans.
  - apply sort_perm.
Qed.

Lemma compare_not_gt_trans (a b c : string) :
  String.compare a b <> Gt -> String.compare b c <> Gt ->
  String.compare a c <> Gt.
Proof.
  revert b c. induction a as [|x a IH]; intros [|y b] [|z c];
    cbn [String.compare]; try congruence.
  unfold Ascii.compare.
  destruct (N.compare_spec (N_of_ascii x) (N_of_ascii y)) as [Hxy|Hxy|Hxy];
    destruct (N.compare_spec (N_of_ascii y) (N_of_ascii z)) as [Hyz|Hyz|Hyz];
    destruct (N.compare_spec (N_of_ascii x) (N_of_ascii z)) as [Hxz|Hxz|Hxz];
    try congruence; try lia.
  apply IH.
Qed.

Lemma codeUnitCompare_le (a b : string) :
  (Sample.codeUnitCompare a b <= 0)%Z <-> String.compare a b <> Gt.
Proof.
  unfold Sample.codeUnitCompare.
  destruct (String.compare a b); split; intros H; try lia; congruence.
Qed.

Lemma codeUnitCompare_consistent : consistent Sample.codeUnitCompare.
Proof.
  split.
  - intros a b. rewrite !codeUnitCompare_le.
    rewrite (String.compare_antisym a b).
    destruct (String.compare b a); cbn [CompOpp];
      [left|right|left]; congruence.
  - intros a b c. rewrite !codeUnitCompare_le. apply compare_not_gt_trans.
Qed.

Lemma ls_rows_sorted_by_cn_witness :
  let rows :=
    tableRows (fst (run (Sample.env None) (Sample.globals None None ["ls"])
                        "token" Sample.alice)) in
  StronglySorted
    (fun a b => (Sample.codeUnitCompare (cn a) (cn b) <= 0)%Z) rows
  /\ Permutation [Sample.b_com; Sample.a_com; Sample.c_com] rows.
Proof.
  apply (ls_rows_sorted_by_cn (Sample.env None)
           (Sample.globals None None ["ls"]) "token" Sample.alice
           Sample.listed).
  - exact codeUnitCompare_consistent.
  - left. reflexivity.
  - reflexivity.
  - reflexivity.
Defined.

Lemma collate_consistent : consistent Sample.collate.
Proof.
  destruct codeUnitCompare_consistent as [Htot Htrans].
  split; unfold Sample.collate.
  - intros a b. apply Htot.
  - intros a b c. apply Htrans.
Qed.

(** C3 as stated fails: the order of the rows is that of
    [localeCompare], not the lexicographic order of the code units.
    Where the collation puts "a" before "B", the list B.com, a.com is
    printed as a.com, B.com, which the code units do not order. *)
Lemma ls_rows_follow_collation :
  let rows :=
    tableRows (fst (run Sample.collating_env
                        (Sample.globals None None ["ls"])
                        "token" Sample.alice)) in
  consistent (localeCompare Sample.collating_env)
  /\ map cn rows = ["a.com"; "B.com"]
  /\ ~ StronglySorted
         (fun a b => (Sample.codeUnitCompare (cn a) (cn b) <= 0)%Z) rows.
Proof.
  cbv zeta. split; [exact collate_consistent|]. split; [reflexivity|].
  intros H. vm_compute in H. inversion H as [|a l Hl Hall]; subst.
  inversion Hall as [|b l' Hle _]; subst.
  vm_compute in Hle. apply Hle. reflexivity.
Qed.

(** The spec's example: b.com, a.com, c.com are listed as a.com,
    b.com, c.com. *)
Example ls_three_certificates :
  map cn (tableRows
            (fst (run (Sample.env None) (Sample.globals None None ["ls"])
                      "token" Sample.alice)))
  = ["a.com"; "b.com"; "c.com"].
Proof. reflexivity. Qed.

(** * Further properties of the command *)

(** ** Rows are neutral for the other observations *)

Lemma filter_rows (p : event -> bool) (w : nat) (l : list Cert) (t : trace) :
  (forall c, p (StdoutWrite (TableRow c w)) = false) ->
  filter p (map (fun x => StdoutWrite (TableRow x w)) l ++ t) = filter p t.
Proof.
  intros Hp. induction l as [|c l IH]; [reflexivity|].
  cbn [map app filter]. rewrite Hp. exact IH.
Qed.

Lemma after_rows (p q : event -> bool) (seen : bool) (w : nat)
    (l : list Cert) (t : trace) :
  (forall c, p (StdoutWrite (TableRow c w)) = false) ->
  (forall c, q (StdoutWrite (TableRow c w)) = false) ->
  after p q seen (map (fun x => StdoutWrite (TableRow x w)) l ++ t)
  = after p q seen t.
Proof.
  intros Hp Hq. induction l as [|c l IH]; [reflexivity|].
  cbn [map app after]. rewrite Hp, Hq, orb_false_r. exact IH.
Qed.

Lemma exitCode_rows (w : nat) (l : list Cert) (t : trace) :
  exitCode (map (fun x => StdoutWrite (TableRow x w)) l ++ t) = exitCode t.
Proof. induction l as [|c l IH]; [reflexivity|exact IH]. Qed.

(** Evaluates the counters on the trace of a path. *)
Ltac eval_count :=
  unfold count;
  cbn [filter isLs isMutation isClose isResume isPause isConstruct
       isSuccess isApi isReadFile isExit isPrint];
  rewrite ?filter_rows by reflexivity;
  cbn [filter isLs isMutation isClose isResume isPause isConstruct
       isSuccess isApi isReadFile isExit isPrint List.length].

(** ** What every run keeps *)

(** Nothing is retried: in one run the client is constructed once, and
    [ls], the mutating calls together, and [close] are each made at
    most once. *)
Theorem api_calls_at_most_once (E : Env) (G : Globals) (token : string)
    (sh : Sh) :
  let t := fst (run E G token sh) in
  count isConstruct t = 1
  /\ count isLs t <= 1
  /\ count isMutation t <= 1
  /\ count isClose t <= 1.
Proof.
  cbv zeta. run_paths; eval_count; repeat split; lia.
Qed.

(** Nothing follows [close()]: when it is called it is the last thing
    the run does. *)
Theorem close_is_last (E : Env) (G : Globals) (token : string) (sh : Sh) :
  let t := fst (run E G token sh) in
  In (Api Close) t -> lastEvent t = Some (Api Close).
Proof.
  cbv zeta. run_paths; intros Hin;
    first [ reflexivity
          | rewrite ?app_comm_cons; apply lastEvent_snoc
          | exfalso; in_trace Hin; discriminate Hin ].
Qed.

Lemma close_is_last_witness :
  lastEvent (fst (run (Sample.env None) (Sample.globals None None ["ls"])
                      "token" Sample.alice)) = Some (Api Close).
Proof.
  apply (close_is_last (Sample.env None) (Sample.globals None None ["ls"])
           "token" Sample.alice).
  simpl. tauto.
Defined.

(** Standard input is listened to at most once, only after the prompt,
    and is paused again once it has answered. *)
Theorem stdin_read_once (E : Env) (G : Globals) (token : string) (sh : Sh) :
  let t := fst (run E G token sh) in
  count isResume t <= 1
  /\ count isPause t <= count isResume t
  /\ after (fun e => match e with
                     | StdoutWrite AreYouSure => true
                     | _ => false
                     end) isResume false t = true
  /\ (stdin E <> None -> count isPause t = count isResume t).
Proof.
  cbv zeta. run_paths; eval_count;
    cbn [after isResume negb orb andb];
    rewrite ?after_rows by reflexivity;
    cbn [after isResume negb orb andb];
    repeat split; try lia; try reflexivity;
    intros Hin; congruence.
Qed.

Lemma stdin_read_once_witness :
  let t := fst (run (Sample.env (Some "y"))
                    (Sample.globals None None ["rm"; "a.com"])
                    "token" Sample.alice) in
  count isPause t = count isResume t.
Proof.
  apply (stdin_read_once (Sample.env (Some "y"))
           (Sample.globals None None ["rm"; "a.com"]) "token" Sample.alice).
  simpl. discriminate.
Defined.

(** Turns the tests of the dispatcher into facts on the subcommand. *)
Lemma strict_eq_true (s : string) (v : Js.value) :
  Js.strict_eq s v = true -> v = Some s.
Proof.
  destruct v as [s'|]; cbn [Js.strict_eq]; [|discriminate].
  intros H. apply String.eqb_eq in H. congruence.
Qed.

(** [renew], [replace] and [rm] mutate only on a yes: a mutating call
    comes after standard input has answered, and the answer was "y"
    once trimmed and lower-cased.  ([create] asks nothing.) *)
Theorem mutation_needs_affirmative_answer (E : Env) (G : Globals)
    (token : string) (sh : Sh) :
  let t := fst (run E G token sh) in
  subcommand G <> Some "create" ->
  after isPause isMutation false t = true
  /\ (existsb isMutation t = true ->
      exists d, stdin E = Some d
                /\ Js.eqb (toLowerCase E (Js.trim d)) (Js.fromString "y")
                   = true).
Proof.
  cbv zeta. intros Hsub. run_paths;
    try (match goal with
         | H : Js.strict_eq "create" (subcommand G) = true |- _ =>
             apply strict_eq_true in H; contradiction
         end);
    cbn [after existsb isPause isMutation negb orb andb];
    rewrite ?after_rows, ?existsb_rows by reflexivity;
    cbn [after existsb isPause isMutation negb orb andb];
    (split; [reflexivity|]); intros Hm; try discriminate Hm;
    match goal with
    | H : stdin E = Some ?d |- _ => exists d; split; [reflexivity|]
    end;
    match goal with
    | H : negb ?b = false |- ?b = true =>
        destruct b; [reflexivity|discriminate H]
    end.
Qed.

Lemma mutation_needs_affirmative_answer_witness :
  exists d, stdin (Sample.env (Some "Y")) = Some d
            /\ Js.eqb (toLowerCase (Sample.env (Some "Y")) (Js.trim d))
                      (Js.fromString "y") = true.
Proof.
  apply (mutation_needs_affirmative_answer (Sample.env (Some "Y"))
           (Sample.globals None None ["renew"; "a.com"])
           "token" Sample.alice).
  - simpl. discriminate.
  - reflexivity.
Defined.



(** Success is reported only for a call that was made and returned:
    the message names the [cn] handed to the one mutating call, no exit
    code is asked for, and nothing but [close()] follows. *)
Theorem success_only_after_mutation (E : Env) (G : Globals)
    (token : string) (sh : Sh) (c u verb : string) :
  let t := fst (run E G token sh) in
  In (ConsoleLog (Success c u verb)) t ->
  count isMutation t = 1
  /\ (In (Api (Create c)) t
      \/ exists e, In e t /\ mutatedCn e = Some c)
  /\ after isMutation isSuccess false t = true
  /\ existsb isExit t = false.
Proof.
  cbv zeta. run_paths; intros Hin; in_trace Hin; try discriminate Hin;
    injection Hin as <- <- <-; eval_count;
    (split; [reflexivity|]);
    (split; [|split; reflexivity]);
    first
      [ left; cbn [In]; tauto
      | right;
        match goal with
        | |- context [Api (Renew ?x)] => exists (Api (Renew x))
        | |- context [Api (Put ?x ?a ?b ?k)] => exists (Api (Put x a b k))
        | |- context [Api (Delete ?x)] => exists (Api (Delete x))
        end;
        split; [cbn [In]; tauto | reflexivity] ].
Qed.

Lemma success_only_after_mutation_witness :
  let t := fst (run (Sample.env (Some "y"))
                    (Sample.globals None None ["renew"; "uid-b"])
                    "token" Sample.alice) in
  count isMutation t = 1
  /\ (In (Api (Create "b.com")) t
      \/ exists e, In e t /\ mutatedCn e = Some "b.com")
  /\ after isMutation isSuccess false t = true
  /\ existsb isExit t = false.
Proof.
  apply (success_only_after_mutation (Sample.env (Some "y"))
           (Sample.globals None None ["renew"; "uid-b"])
           "token" Sample.alice "b.com" "uid-b" "renewed").
  simpl. tauto.
Defined.

(** ** Listing *)

(** [ls] takes no positional argument: with any, it prints the usage
    error and exits 1 before the list is fetched. *)
Theorem ls_takes_no_argument (E : Env) (G : Globals) (token : string)
    (sh : Sh) :
  subcommand G = Some "ls" \/ subcommand G = Some "list" ->
  tl (argv_ (argv G)) <> [] ->
  let t := fst (run E G token sh) in
  t = [Construct (apiUrl G) token (debug G) (currentTeam sh);
       ConsoleError (InvalidNumberOfArguments "`now certs ls`");
       Exit 1]
  /\ exitCode t = 1
  /\ existsb isApi t = false.
Proof.
  intros Hs Ha. cbv zeta. unfold_run.
  destruct Hs as [Hs|Hs]; rewrite Hs; eval_strict_eq; reduce;
    (destruct (tl (argv_ (argv G))) as [|a l]; [contradiction|]);
    cbn [List.length Nat.eqb]; reduce;
    destruct (exit_sync E); reduce; repeat split.
Qed.

Lemma ls_takes_no_argument_witness :
  let t := fst (run (Sample.env None)
                    (Sample.globals None None ["list"; "a.com"])
                    "token" Sample.alice) in
  exitCode t = 1 /\ existsb isApi t = false.
Proof.
  apply (ls_takes_no_argument (Sample.env None)
           (Sample.globals None None ["list"; "a.com"])
           "token" Sample.alice).
  - right. reflexivity.
  - simpl. discriminate.
Defined.

(** [ls] only reads: besides [ls] and [close] it calls nothing on the
    client, reads no file and does not listen to standard input. *)
Theorem ls_is_read_only (E : Env) (G : Globals) (token : string) (sh : Sh) :
  subcommand G = Some "ls" \/ subcommand G = Some "list" ->
  let t := fst (run E G token sh) in
  existsb isMutation t = false
  /\ existsb isReadFile t = false
  /\ existsb isResume t = false.
Proof.
  intros Hs. cbv zeta. unfold_run.
  destruct Hs as [Hs|Hs]; rewrite Hs; eval_strict_eq; reduce;
    repeat (reduce; try rewrite forEach_emit; inner_destruct); reduce;
    cbn [existsb isMutation isReadFile isResume orb];
    rewrite ?existsb_rows by reflexivity;
    repeat split.
Qed.

Lemma ls_is_read_only_witness :
  let t := fst (run (Sample.env None) (Sample.globals None None ["ls"])
                    "token" Sample.alice) in
  existsb isMutation t = false
  /\ existsb isReadFile t = false
  /\ existsb isResume t = false.
Proof.
  apply (ls_is_read_only (Sample.env None) (Sample.globals None None ["ls"])
           "token" Sample.alice).
  left. reflexivity.
Defined.

Lemma fold_max_ge_init (f : Cert -> nat) (l : list Cert) (a : nat) :
  a <= fold_left (fun acc i => Nat.max acc (f i)) l a.
Proof.
  revert a. induction l as [|c l IH]; intros a; cbn [fold_left]; [lia|].
  specialize (IH (Nat.max a (f c))). lia.
Qed.

Lemma fold_max_ge (f : Cert -> nat) (l : list Cert) (a : nat) (c : Cert) :
  In c l -> f c <= fold_left (fun acc i => Nat.max acc (f i)) l a.
Proof.
  revert a. induction l as [|x l IH]; intros a Hin; [contradiction|].
  cbn [fold_left]. destruct Hin as [->|Hin]; [|apply IH; exact Hin].
  pose proof (fold_max_ge_init f l (Nat.max a (f c))). lia.
Qed.

Lemma fold_max_attained (f : Cert -> nat) (l : list Cert) (a : nat) :
  fold_left (fun acc i => Nat.max acc (f i)) l a = a
  \/ exists c, In c l /\ fold_left (fun acc i => Nat.max acc (f i)) l a = f c.
Proof.
  revert a. induction l as [|x l IH]; intros a; cbn [fold_left];
    [left; reflexivity|].
  destruct (IH (Nat.max a (f x))) as [H|[c [Hc H]]].
  - rewrite H. destruct (Nat.max_spec a (f x)) as [[_ Hm]|[_ Hm]];
      rewrite Hm;
      [right; exists x; split; [left|]; reflexivity|left; reflexivity].
  - right. exists c. split; [right; exact Hc|exact H].
Qed.

Lemma rowWidths_rows (w : nat) (l : list Cert) (t : trace) :
  rowWidths (map (fun x => StdoutWrite (TableRow x w)) l ++ t)
  = repeat w (List.length l) ++ rowWidths t.
Proof.
  induction l as [|c l IH]; [reflexivity|].
  cbn [map app List.length repeat]. unfold rowWidths in *.
  cbn [flat_map app]. rewrite IH. reflexivity.
Qed.

(** The trace of a listing that went through. *)
Lemma run_ls_trace (E : Env) (G : Globals) (token : string) (sh : Sh)
    (l : list Cert) :
  let certs := newNowCerts E (apiUrl G) token (debug G) (currentTeam sh) in
  subcommand G = Some "ls" \/ subcommand G = Some "list" ->
  tl (argv_ (argv G)) = [] ->
  ls certs = Ok l ->
  let sorted := Js.sort (fun a b => localeCompare E (cn a) (cn b)) l in
  let maxCnLength :=
    fold_left (fun acc i => Nat.max acc (String.length (cn i))) sorted 0 + 1 in
  let width := if supportsColor E then maxCnLength + 9 else maxCnLength in
  fst (run E G token sh)
  = [Construct (apiUrl G) token (debug G) (currentTeam sh); Api Ls;
     ConsoleLog (CertificatesFound (List.length l)
                   (scopeName (currentTeam sh) (user sh)))]
    ++ (if 0 <? List.length l
        then ConsoleLog (TableHeader maxCnLength)
             :: map (fun x => StdoutWrite (TableRow x width)) sorted
        else [])
    ++ [Api Close].
Proof.
  cbv zeta. intros Hs Ha Hl. unfold_run.
  destruct Hs as [Hs|Hs]; rewrite Hs, Ha, Hl; eval_strict_eq; reduce;
    cbn [List.length Nat.eqb]; reduce;
    destruct (0 <? List.length l); rewrite ?forEach_emit;
    repeat (reduce; inner_destruct); reduce; reflexivity.
Qed.

(** The line of [ls] announces as many certificates as the API listed
    and as many rows follow; an empty list gets neither header nor
    rows. *)
Theorem ls_announces_what_it_prints (E : Env) (G : Globals)
    (token : string) (sh : Sh) (l : list Cert) :
  let certs := newNowCerts E (apiUrl G) token (debug G) (currentTeam sh) in
  let t := fst (run E G token sh) in
  subcommand G = Some "ls" \/ subcommand G = Some "list" ->
  tl (argv_ (argv G)) = [] ->
  ls certs = Ok l ->
  In (ConsoleLog (CertificatesFound (List.length l)
                    (scopeName (currentTeam sh) (user sh)))) t
  /\ List.length (tableRows t) = List.length l
  /\ (l = [] ->
      t = [Construct (apiUrl G) token (debug G) (currentTeam sh); Api Ls;
           ConsoleLog (CertificatesFound 0
                         (scopeName (currentTeam sh) (user sh)));
           Api Close]).
Proof.
  cbv zeta. intros Hs Ha Hl.
  rewrite (run_ls_trace E G token sh l Hs Ha Hl).
  split; [cbn [app In]; tauto|]. split.
  - destruct l as [|c l']; [reflexivity|].
    change (0 <? List.length (c :: l')) with true. cbv iota.
    cbn [app tableRows flat_map]. fold tableRows.
    rewrite tableRows_rows. cbn [tableRows flat_map].
    rewrite app_nil_r. symmetry. apply Permutation_length, sort_perm.
  - intros ->. reflexivity.
Qed.

Lemma ls_announces_what_it_prints_witness :
  let t := fst (run (Sample.env None) (Sample.globals None None ["ls"])
                    "token" Sample.alice) in
  In (ConsoleLog (CertificatesFound 3 (Some "alice"))) t
  /\ List.length (tableRows t) = 3.
Proof.
  destruct (ls_announces_what_it_prints (Sample.env None)
              (Sample.globals None None ["ls"]) "token" Sample.alice
              Sample.listed (or_introl eq_refl) eq_refl eq_refl)
    as [Hin [Hlen _]].
  split; [exact Hin|exact Hlen].
Defined.

(** The [cn] column is one wider than the longest [cn] listed, nine
    more when colours are on: all rows share that width and every
    [cn] fits in it with room to spare. *)
Theorem ls_column_fits_every_cn (E : Env) (G : Globals) (token : string)
    (sh : Sh) (l : list Cert) :
  let certs := newNowCerts E (apiUrl G) token (debug G) (currentTeam sh) in
  let t := fst (run E G token sh) in
  subcommand G = Some "ls" \/ subcommand G = Some "list" ->
  tl (argv_ (argv G)) = [] ->
  ls certs = Ok l ->
  l <> [] ->
  exists longest,
    In longest l
    /\ (forall c, In c l -> String.length (cn c) <= String.length (cn longest))
    /\ In (ConsoleLog (TableHeader (String.length (cn longest) + 1))) t
    /\ rowWidths t
       = repeat (String.length (cn longest) + 1
                 + (if supportsColor E then 9 else 0))
                (List.length l).
Proof.
  cbv zeta. intros Hs Ha Hl Hne.
  rewrite (run_ls_trace E G token sh l Hs Ha Hl).
  set (sorted := Js.sort (fun a b => localeCompare E (cn a) (cn b)) l).
  assert (Hperm : Permutation l sorted) by apply sort_perm.
  destruct (fold_max_attained (fun c => String.length (cn c)) sorted 0)
    as [H0|[longest [Hin Hmax]]].
  - destruct l as [|c l']; [contradiction|].
    exists c. split; [left; reflexivity|].
    assert (Hall : forall x, In x (c :: l') -> String.length (cn x) = 0).
    { intros x Hx.
      pose proof (fold_max_ge (fun c => String.length (cn c)) sorted 0 x
                    (Permutation_in x Hperm Hx)) as Hle.
      cbv beta in Hle. rewrite H0 in Hle. lia. }
    split; [intros x Hx; rewrite (Hall x Hx); lia|].
    change (0 <? List.length (c :: l')) with true. cbv iota. rewrite H0.
    rewrite (Hall c (or_introl eq_refl)).
    split; [cbn [app In]; tauto|].
    cbn [app rowWidths flat_map]. fold rowWidths.
    rewrite rowWidths_rows. cbn [rowWidths flat_map]. rewrite app_nil_r.
    rewrite <- (Permutation_length Hperm).
    destruct (supportsColor E); reflexivity.
  - exists longest.
    split; [exact (Permutation_in longest (Permutation_sym Hperm) Hin)|].
    split.
    { intros x Hx.
      pose proof (fold_max_ge (fun c => String.length (cn c)) sorted 0 x
                    (Permutation_in x Hperm Hx)) as Hle.
      cbv beta in Hle. rewrite Hmax in Hle. exact Hle. }
    destruct l as [|c l']; [contradiction|].
    change (0 <? List.length (c :: l')) with true. cbv iota.
    fold sorted. rewrite Hmax.
    split; [cbn [app In]; tauto|].
    cbn [app rowWidths flat_map]. fold rowWidths.
    rewrite rowWidths_rows. cbn [rowWidths flat_map]. rewrite app_nil_r.
    rewrite <- (Permutation_length Hperm).
    destruct (supportsColor E); [reflexivity|].
    rewrite Nat.add_0_r. reflexivity.
Qed.

Lemma ls_column_fits_every_cn_witness :
  exists longest,
    In longest Sample.listed
    /\ (forall c, In c Sample.listed ->
                  String.length (cn c) <= String.length (cn longest))
    /\ In (ConsoleLog (TableHeader (String.length (cn longest) + 1)))
          (fst (run (Sample.env None) (Sample.globals None None ["ls"])
                    "token" Sample.alice))
    /\ rowWidths (fst (run (Sample.env None)
                           (Sample.globals None None ["ls"])
                           "token" Sample.alice))
       = repeat (String.length (cn longest) + 1 + 0) 3.
Proof.
  apply (ls_column_fits_every_cn (Sample.env None)
           (Sample.globals None None ["ls"]) "token" Sample.alice
           Sample.listed).
  - left. reflexivity.
  - reflexivity.
  - reflexivity.
  - discriminate.
Defined.

(** ** Validation in the other subcommands *)



(** [create] asks for no confirmation and resolves nothing: it never
    listens to standard input and never fetches the list. *)
Theorem create_never_prompts (E : Env) (G : Globals) (token : string)
    (sh : Sh) :
  subcommand G = Some "create" ->
  let t := fst (run E G token sh) in
  existsb isResume t = false /\ existsb isLs t = false.
Proof.
  intros Hs. cbv zeta. unfold_run. rewrite Hs. eval_strict_eq. reduce.
  repeat (reduce; inner_destruct); reduce; split; reflexivity.
Qed.

Lemma create_never_prompts_witness :
  let t := fst (run (Sample.env None)
                    (Sample.globals (Some "a.crt") (Some "a.key")
                                    ["create"; "a.com"])
                    "token" Sample.alice) in
  existsb isResume t = false /\ existsb isLs t = false.
Proof.
  apply (create_never_prompts (Sample.env None)
           (Sample.globals (Some "a.crt") (Some "a.key") ["create"; "a.com"])
           "token" Sample.alice).
  reflexivity.
Defined.

(** [create <cn>] with neither [--crt] nor [--key] holding a value: a
    [--ca] that holds one makes it a custom entry lacking its required
    flags, hence the usage error and exit 1 with no file read and no
    API call; a [--ca] absent or empty leaves the standard certificate,
    asked of the API without any file read. *)
Theorem create_ca_alone_rejected (E : Env) (G : Globals) (token : string)
    (sh : Sh) (cn : string) :
  let certs := newNowCerts E (apiUrl G) token (debug G) (currentTeam sh) in
  subcommand G = Some "create" ->
  tl (argv_ (argv G)) = [cn] ->
  Js.truthy (argv_crt (argv G)) = false ->
  Js.truthy (argv_key (argv G)) = false ->
  fst (run E G token sh)
  = Construct (apiUrl G) token (debug G) (currentTeam sh)
    :: (if Js.truthy (argv_ca (argv G))
        then [ConsoleError (MissingRequiredArguments create_usage); Exit 1]
        else Api (Create cn) :: afterCreate cn (create certs cn)).
Proof.
  cbv zeta. intros Hs Ha Hcrt Hkey. unfold_run.
  rewrite Hs, Ha, Hcrt, Hkey. eval_strict_eq. reduce.
  unfold afterCreate.
  repeat (reduce; inner_destruct); reduce; reflexivity.
Qed.

Lemma create_ca_alone_rejected_witness :
  fst (run (Sample.env None)
           (mkGlobals (mkArgv ["create"; "a.com"] None None
                              (Some "chain.crt") false false)
                      false "https://api.zeit.co" (Some "create"))
           "token" Sample.alice)
  = [Construct "https://api.zeit.co" "token" false None;
     ConsoleError (MissingRequiredArguments create_usage); Exit 1]
  /\ fst (run Sample.issuing_env
              (mkGlobals (mkArgv ["create"; "a.com"] None None
                                 (Some "") false false)
                         false "https://api.zeit.co" (Some "create"))
              "token" Sample.alice)
     = [Construct "https://api.zeit.co" "token" false None;
        Api (Create "a.com");
        ConsoleLog (Success "a.com" "uid-new" "created"); Api Close].
Proof.
  split.
  - apply (create_ca_alone_rejected (Sample.env None)
             (mkGlobals (mkArgv ["create"; "a.com"] None None
                                (Some "chain.crt") false false)
                        false "https://api.zeit.co" (Some "create"))
             "token" Sample.alice "a.com");
      reflexivity.
  - apply (create_ca_alone_rejected Sample.issuing_env
             (mkGlobals (mkArgv ["create"; "a.com"] None None
                                (Some "") false false)
                        false "https://api.zeit.co" (Some "create"))
             "token" Sample.alice "a.com");
      reflexivity.
Defined.

(** ** Custom certificates *)





(** A certificate file that cannot be read stops [create] and
    [replace] with the file's error before anything is called on the
    client. *)
Theorem unreadable_crt_stops_before_api (E : Env) (G : Globals)
    (token : string) (sh : Sh) (crtFile : string) (err : exn) :
  let r := run E G token sh in
  subcommand G = Some "create" \/ subcommand G = Some "replace" ->
  (subcommand G = Some "create" -> List.length (tl (argv_ (argv G))) = 1) ->
  argv_crt (argv G) = Some crtFile -> Js.truthy (Some crtFile) = true ->
  Js.truthy (argv_key (argv G)) = true ->
  readFileSync E crtFile = Err err ->
  r = ([Construct (apiUrl G) token (debug G) (currentTeam sh);
        ReadFile crtFile], Throw err).
Proof.
  cbv zeta. intros Hs Ha Hcrt Tcrt Tkey Rcrt. unfold_run.
  destruct Hs as [Hs|Hs]; rewrite Hs, Hcrt, Tcrt, Tkey, Rcrt;
    eval_strict_eq; reduce; [|reflexivity].
  specialize (Ha Hs).
  destruct (tl (argv_ (argv G))) as [|a [|b l]]; try discriminate Ha.
  reflexivity.
Qed.

Lemma unreadable_crt_stops_before_api_witness :
  run (mkEnv (fun _ _ _ _ => Sample.client) (fun f => Err "ENOENT") None
             Sample.codeUnitCompare Sample.lower false false)
      (Sample.globals (Some "a.crt") (Some "a.key") ["replace"; "a.com"])
      "token" Sample.alice
  = ([Construct "https://api.zeit.co" "token" false None; ReadFile "a.crt"],
     Throw "ENOENT").
Proof.
  apply (unreadable_crt_stops_before_api
           (mkEnv (fun _ _ _ _ => Sample.client) (fun f => Err "ENOENT") None
                  Sample.codeUnitCompare Sample.lower false false)
           (Sample.globals (Some "a.crt") (Some "a.key")
                           ["replace"; "a.com"])
           "token" Sample.alice "a.crt" "ENOENT");
    try reflexivity.
  right. reflexivity.
Defined.

(** ** The entry point *)

(** [--help] wins over everything else on the command line: the usage
    text, exit code 0, and no client is constructed. *)
Theorem help_flag_wins (E : Env) (ctx : Ctx) :
  argv_help (ctx_argv ctx) = true ->
  module_exports E ctx = ([HelpText; Exit 0], Halt).
Proof.
  intros Hh. unfold_main. rewrite Hh. unfold_run. reduce.
  destruct (exit_sync E); reflexivity.
Qed.

Lemma help_flag_wins_witness :
  module_exports (Sample.env None)
    (mkCtx (mkArgv ["certs"; "rm"; "a.com"] None None None true false)
           "https://api.zeit.co" [] Sample.alice)
  = ([HelpText; Exit 0], Halt).
Proof.
  apply (help_flag_wins (Sample.env None)
           (mkCtx (mkArgv ["certs"; "rm"; "a.com"] None None None true false)
                  "https://api.zeit.co" [] Sample.alice)).
  reflexivity.
Defined.



(** [main] around [run]: the dispatcher's trace, and after a throw the
    handled error and [exit(1)]. *)
Lemma main_try_run (E : Env) (ctx : Ctx) (item : Credential) :
  argv_help (ctx_argv ctx) = false ->
  Js.truthy (subcommand (mainGlobals ctx)) = true ->
  find (fun item => String.eqb (provider item) "sh") (credentials ctx)
    = Some item ->
  module_exports E ctx
  = match run E (mainGlobals ctx) (token item) (sh ctx) with
    | (t, Throw err) =>
        (t ++ [HandleError err; Exit 1],
         if exit_sync E then Halt else Ret tt)
    | r => r
    end.
Proof.
  intros Hh Hs Hf. unfold mainGlobals in *. cbv zeta in *.
  cbn [subcommand argv_] in Hs.
  unfold module_exports, main, try_catch. cbv zeta.
  cbn [subcommand argv_ argv_help]. rewrite Hh, Hs, Hf.
  unfold ret, bind, emit, exit. reduce.
  destruct (run E _ (token item) (sh ctx)) as [t [u|err|]]; reduce;
    try reflexivity.
  destruct (exit_sync E); reflexivity.
Qed.

Lemma run_throw_exit_code (E : Env) (G : Globals) (token : string)
    (sh : Sh) (err : exn) :
  snd (run E G token sh) = Throw err ->
  exitCode (fst (run E G token sh) ++ [HandleError err; Exit 1]) = 1.
Proof.
  run_paths; intros Ht; try discriminate Ht;
    cbn [app exitCode]; rewrite <- ?app_assoc, ?exitCode_rows;
    reflexivity.
Qed.

(** The exit code of the process once [run] is reached: 1 when an
    error is thrown anywhere in [run], which [handleError] then
    receives; otherwise the code [run] asked for, 0 if it asked for
    none. *)
Theorem process_exit_code (E : Env) (ctx : Ctx) (item : Credential) :
  let r := run E (mainGlobals ctx) (token item) (sh ctx) in
  let t := fst (module_exports E ctx) in
  argv_help (ctx_argv ctx) = false ->
  Js.truthy (subcommand (mainGlobals ctx)) = true ->
  find (fun item => String.eqb (provider item) "sh") (credentials ctx)
    = Some item ->
  (forall err, snd r = Throw err ->
     exitCode t = 1 /\ In (HandleError err) t)
  /\ ((forall err, snd r <> Throw err) ->
      t = fst r /\ exitCode t = exitCode (fst r)).
Proof.
  cbv zeta. intros Hh Hs Hf. rewrite (main_try_run E ctx item Hh Hs Hf).
  pose proof (run_throw_exit_code E (mainGlobals ctx) (token item) (sh ctx))
    as Hthrow.
  destruct (run E (mainGlobals ctx) (token item) (sh ctx)) as [t [u|e|]];
    cbn [fst snd] in *; split.
  - intros err H. discriminate H.
  - intros _. split; reflexivity.
  - intros err H. injection H as <-. split; [exact (Hthrow e eq_refl)|].
    apply in_or_app. right. left. reflexivity.
  - intros H. destruct (H e eq_refl).
  - intros err H. discriminate H.
  - intros _. split; reflexivity.
Qed.

Lemma process_exit_code_witness :
  exitCode
    (fst (module_exports
            (mkEnv (fun _ _ _ _ =>
                      mkNowCerts (Err "ECONNREFUSED") (fun _ => Ok None)
                                 (fun _ _ _ _ => Ok None) (fun _ => Ok tt)
                                 (fun _ => Ok tt) (Ok tt))
                   (fun f => Ok f) None Sample.codeUnitCompare
                     Sample.lower false false)
            (Sample.ctx ["ls"]))) = 1
  /\ exitCode (fst (module_exports (Sample.env None) (Sample.ctx ["ls"])))
     = 0.
Proof.
  split.
  - apply (proj1 (process_exit_code
                    (mkEnv (fun _ _ _ _ =>
                              mkNowCerts (Err "ECONNREFUSED")
                                         (fun _ => Ok None)
                                         (fun _ _ _ _ => Ok None)
                                         (fun _ => Ok tt)
                                         (fun _ => Ok tt) (Ok tt))
                           (fun f => Ok f) None Sample.codeUnitCompare
                           Sample.lower
                           false false)
                    (Sample.ctx ["ls"]) (mkCredential "sh" "token")
                    eq_refl eq_refl eq_refl) "ECONNREFUSED").
    reflexivity.
  - destruct (proj2 (process_exit_code (Sample.env None) (Sample.ctx ["ls"])
                       (mkCredential "sh" "token") eq_refl eq_refl eq_refl))
      as [_ Hcode].
    + intros err H. discriminate H.
    + rewrite Hcode. reflexivity.
Defined.

Lemma run_starts_with_construct (E : Env) (G : Globals) (token : string)
    (sh : Sh) :
  exists t,
    fst (run E G token sh)
    = Construct (apiUrl G) token (debug G) (currentTeam sh) :: t.
Proof. run_paths; eexists; reflexivity. Qed.

(** The client is constructed first, with the API URL and debug flag of
    the context, the token of the first "sh" credentials and the
    current team. *)
Theorem client_constructed_from_context (E : Env) (ctx : Ctx)
    (item : Credential) :
  argv_help (ctx_argv ctx) = false ->
  Js.truthy (subcommand (mainGlobals ctx)) = true ->
  find (fun item => String.eqb (provider item) "sh") (credentials ctx)
    = Some item ->
  exists t,
    fst (module_exports E ctx)
    = Construct (ctx_apiUrl ctx) (token item) (argv_debug (ctx_argv ctx))
                (currentTeam (sh ctx)) :: t.
Proof.
  intros Hh Hs Hf. rewrite (main_try_run E ctx item Hh Hs Hf).
  destruct (run_starts_with_construct E (mainGlobals ctx) (token item)
              (sh ctx)) as [t Ht].
  destruct (run E (mainGlobals ctx) (token item) (sh ctx)) as [t0 [u|err|]];
    cbn [fst] in *; subst t0; eexists; reflexivity.
Qed.

Lemma client_constructed_from_context_witness :
  exists t,
    fst (module_exports (Sample.env None) (Sample.ctx ["ls"]))
    = Construct "https://api.zeit.co" "token" false None :: t.
Proof.
  apply (client_constructed_from_context (Sample.env None) (Sample.ctx ["ls"])
           (mkCredential "sh" "token"));
    reflexivity.
Defined.

(** ** The answers that count as a yes *)

Lemma units_eqb_eq (a b : Js.units) : Js.eqb a b = true <-> a = b.
Proof.
  revert b. induction a as [|x a IH]; intros [|y b]; cbn [Js.eqb];
    try (split; [discriminate|discriminate]); [split; reflexivity|].
  rewrite andb_true_iff, N.eqb_eq, IH.
  split; [intros [-> ->]; reflexivity|intros H; injection H; auto].
Qed.

Lemma trimStart_split (l : Js.units) :
  exists pre, l = pre ++ Js.trimStart l
              /\ forallb Js.isWhiteSpace pre = true.
Proof.
  induction l as [|c l [pre [Hl Hpre]]]; [exists []; split; reflexivity|].
  cbn [Js.trimStart]. destruct (Js.isWhiteSpace c) eqn:Hc.
  - exists (c :: pre). cbn [app forallb]. rewrite Hc, Hpre, <- Hl.
    split; reflexivity.
  - exists []. split; reflexivity.
Qed.

Lemma trimStart_whitespace (pre l : Js.units) :
  forallb Js.isWhiteSpace pre = true ->
  Js.trimStart (pre ++ l) = Js.trimStart l.
Proof.
  induction pre as [|c pre IH]; [reflexivity|].
  cbn [forallb app Js.trimStart]. intros H.
  apply andb_prop in H. destruct H as [Hc Hpre]. rewrite Hc. exact (IH Hpre).
Qed.

Lemma forallb_rev (p : N -> bool) (l : Js.units) :
  forallb p (rev l) = forallb p l.
Proof.
  destruct (forallb p l) eqn:H.
  - rewrite forallb_forall in *. intros x Hx. apply H, in_rev, Hx.
  - destruct (forallb p (rev l)) eqn:H'; [|reflexivity].
    rewrite <- H. symmetry. rewrite forallb_forall in *.
    intros x Hx. apply H'. rewrite <- in_rev. exact Hx.
Qed.

(** What [trim] leaves is one code unit that is no white space exactly
    when the text is that code unit between white space. *)
Lemma trim_single (d : Js.units) (c : N) :
  Js.isWhiteSpace c = false ->
  (Js.trim d = [c]
   <-> exists pre post,
         d = pre ++ c :: post
         /\ forallb Js.isWhiteSpace pre = true
         /\ forallb Js.isWhiteSpace post = true).
Proof.
  intros Hws. unfold Js.trim. split.
  - intros Ht. destruct (trimStart_split d) as [pre [Hl Hpre]].
    unfold Js.trimEnd in Ht.
    assert (Hrev : Js.trimStart (rev (Js.trimStart d)) = [c]).
    { rewrite <- (rev_involutive (Js.trimStart (rev (Js.trimStart d)))), Ht.
      reflexivity. }
    destruct (trimStart_split (rev (Js.trimStart d))) as [pre' [Hl' Hpre']].
    rewrite Hrev in Hl'.
    assert (Hm : Js.trimStart d = c :: rev pre').
    { rewrite <- (rev_involutive (Js.trimStart d)), Hl', rev_app_distr.
      reflexivity. }
    exists pre, (rev pre'). rewrite <- Hm.
    split; [exact Hl|]. split; [exact Hpre|].
    rewrite forallb_rev. exact Hpre'.
  - intros [pre [post [Hl [Hpre Hpost]]]]. rewrite Hl.
    rewrite (trimStart_whitespace pre _ Hpre).
    cbn [Js.trimStart]. rewrite Hws. unfold Js.trimEnd. cbn [rev].
    rewrite trimStart_whitespace by (rewrite forallb_rev; exact Hpost).
    cbn [Js.trimStart]. rewrite Hws. reflexivity.
Qed.

(** On a runtime whose [toLowerCase] takes "y" and "Y", and nothing else,
    to "y", [readConfirmation] answers true exactly when standard input
    delivers one "y" or "Y" with nothing but white space of the language
    around it (U+FEFF, U+2028 and the like included); it never throws. *)
Theorem readConfirmation_accepts (E : Env) (cert : Cert) (msg : string) :
  lowersToY (toLowerCase E) ->
  (snd (readConfirmation E cert msg) = Ret true
   <-> exists d pre c post,
         stdin E = Some d
         /\ d = pre ++ c :: post
         /\ forallb Js.isWhiteSpace pre = true
         /\ forallb Js.isWhiteSpace post = true
         /\ (c = 0x79 \/ c = 0x59)%N)
  /\ (forall err, snd (readConfirmation E cert msg) <> Throw err).
Proof.
  intros Hlow.
  assert (Hyes : forall d,
            Js.eqb (toLowerCase E (Js.trim d)) (Js.fromString "y") = true
            <-> exists pre c post,
                  d = pre ++ c :: post
                  /\ forallb Js.isWhiteSpace pre = true
                  /\ forallb Js.isWhiteSpace post = true
                  /\ (c = 0x79 \/ c = 0x59)%N).
  { intros d. rewrite units_eqb_eq, (Hlow (Js.trim d)).
    change (Js.fromString "y") with [0x79%N].
    change (Js.fromString "Y") with [0x59%N].
    split.
    - intros [H|H].
      + apply (trim_single d 0x79 eq_refl) in H.
        destruct H as [pre [post H]]. exists pre, 0x79%N, post.
        intuition auto.
      + apply (trim_single d 0x59 eq_refl) in H.
        destruct H as [pre [post H]]. exists pre, 0x59%N, post.
        intuition auto.
    - intros [pre [c [post [Hd [Hpre [Hpost [-> | ->]]]]]]].
      + left. apply (trim_single d 0x79 eq_refl). exists pre, post. auto.
      + right. apply (trim_single d 0x59 eq_refl). exists pre, post. auto. }
  unfold readConfirmation, bind, emit, ret, halt.
  destruct (stdin E) as [d|]; reduce.
  - split; [|intros err H; discriminate H]. split.
    + intros H. injection H as H. apply Hyes in H.
      destruct H as [pre [c [post H]]]. exists d, pre, c, post.
      split; [reflexivity|exact H].
    + intros [d' [pre [c [post [Hd H]]]]]. injection Hd as <-.
      f_equal. apply Hyes. exists pre, c, post. exact H.
  - split; [|intros err H; discriminate H]. split.
    + intros H. discriminate H.
    + intros [d [pre [c [post [Hd _]]]]]. discriminate Hd.
Qed.

Lemma lowerUnit_y (c : N) :
  Sample.lowerUnit c = 0x79%N <-> (c = 0x79 \/ c = 0x59)%N.
Proof.
  unfold Sample.lowerUnit.
  repeat match goal with
    | |- context [N.leb ?a ?b] => destruct (N.leb_spec a b)
    | |- context [N.eqb ?a ?b] => destruct (N.eqb_spec a b)
    end; cbn [andb orb negb]; lia.
Qed.

Lemma sample_lower_to_y : lowersToY Sample.lower.
Proof.
  intros s. change (Js.fromString "y") with [0x79%N].
  change (Js.fromString "Y") with [0x59%N]. unfold Sample.lower.
  destruct s as [|c [|c' s]]; cbn [map].
  - split; [discriminate|intros [H|H]; discriminate H].
  - split.
    + intros H. injection H as H. apply lowerUnit_y in H.
      destruct H as [-> | ->]; [left|right]; reflexivity.
    + intros [H|H]; injection H as ->; reflexivity.
  - split; [discriminate|intros [H|H]; discriminate H].
Qed.

(** A byte order mark and a line feed around "Y" still make a yes. *)
Lemma readConfirmation_accepts_witness :
  snd (readConfirmation
         (mkEnv (fun _ _ _ _ => Sample.client) (fun f => Ok f)
                (Some [0xFEFF; 0x59; 0x0A]%N)
                Sample.codeUnitCompare Sample.lower false false)
         Sample.a_com removed) = Ret true.
Proof.
  apply (proj1 (readConfirmation_accepts
                  (mkEnv (fun _ _ _ _ => Sample.client) (fun f => Ok f)
                         (Some [0xFEFF; 0x59; 0x0A]%N)
                         Sample.codeUnitCompare Sample.lower false false)
                  Sample.a_com removed sample_lower_to_y)).
  exists [0xFEFF; 0x59; 0x0A]%N, [0xFEFF%N], 0x59%N, [0x0A%N].
  repeat split; try reflexivity. right. reflexivity.
Defined.

(** ** Resolution, for every caller *)

Lemma find_first {A} (p : A -> bool) (l : list A) (c : A) :
  find p l = Some c ->
  exists l1 l2, l = l1 ++ c :: l2 /\ p c = true
                /\ forallb (fun x => negb (p x)) l1 = true.
Proof.
  induction l as [|x l IH]; cbn [find]; [discriminate|].
  destruct (p x) eqn:Hx.
  - intros H. injection H as <-. exists [], l. repeat split. exact Hx.
  - intros H. destruct (IH H) as [l1 [l2 [Hl [Hc Hl1]]]].
    exists (x :: l1), l2. rewrite Hl. cbn [app forallb]. rewrite Hx, Hl1.
    repeat split. exact Hc.
Qed.

(** [getCertIdCn] makes one call, [ls].  If it throws, so does
    [getCertIdCn], silently.  Otherwise the answer is the first entry
    of the list whose [uid] or [cn] is the argument, every entry before
    it matching neither, with nothing printed; or, when no entry
    matches, [null] after the not-found error naming the argument and
    the scope. *)
Theorem getCertIdCn_outcomes (certs : NowCerts) (idOrCn : Js.value)
    (team : option Team) (user : User) :
  match ls certs with
  | Err err => getCertIdCn certs idOrCn team user = ([Api Ls], Throw err)
  | Ok l =>
      (exists l1 c l2,
          l = l1 ++ c :: l2
          /\ matches idOrCn c = true
          /\ forallb (fun x => negb (matches idOrCn x)) l1 = true
          /\ getCertIdCn certs idOrCn team user = ([Api Ls], Ret (Some c)))
      \/ (forallb (fun x => negb (matches idOrCn x)) l = true
          /\ getCertIdCn certs idOrCn team user
             = ([Api Ls;
                 ConsoleError (NoCertificateFound idOrCn
                                 (scopeName team user))],
                Ret None))
  end.
Proof.
  unfold getCertIdCn, call, bind, emit, ret.
  destruct (ls certs) as [l|err]; [|reflexivity].
  rewrite nth_error_filter_find. fold (matches idOrCn).
  destruct (find (matches idOrCn) l) as [c|] eqn:Hf.
  - left. destruct (find_first _ _ _ Hf) as [l1 [l2 [Hl [Hc Hl1]]]].
    exists l1, c, l2. repeat split; assumption.
  - right. split; [|reflexivity].
    apply forallb_forall. intros x Hx.
    rewrite (find_none _ _ Hf x Hx). reflexivity.
Qed.

(** After the not-found error nothing is asked and nothing is changed:
    the run ends there with exit code 1, in [renew], [replace] and [rm]
    alike. *)
Theorem not_found_ends_the_run (E : Env) (G : Globals) (token : string)
    (sh : Sh) (idOrCn scope : Js.value) :
  let t := fst (run E G token sh) in
  In (ConsoleError (NoCertificateFound idOrCn scope)) t ->
  lastEvent t = Some (Exit 1)
  /\ existsb isMutation t = false
  /\ existsb isResume t = false
  /\ idOrCn = nth_error (tl (argv_ (argv G))) 0.
Proof.
  cbv zeta. run_paths; intros Hin; in_trace Hin; try discriminate Hin;
    injection Hin as <- <-; repeat split.
Qed.

Lemma not_found_ends_the_run_witness :
  let t := fst (run (Sample.env (Some "y"))
                    (Sample.globals None None ["renew"; "d.com"])
                    "token" Sample.alice) in
  lastEvent t = Some (Exit 1)
  /\ existsb isMutation t = false
  /\ existsb isResume t = false
  /\ Some "d.com" = nth_error ["d.com"] 0.
Proof.
  apply (not_found_ends_the_run (Sample.env (Some "y"))
           (Sample.globals None None ["renew"; "d.com"])
           "token" Sample.alice (Some "d.com") (Some "alice")).
  simpl. tauto.
Defined.

(** ** The last branch of the dispatcher *)

(** [run] prints the usage text exactly when the subcommand is not one
    it knows; it then asks for exit code 1 without returning, so that
    [close()] is still called unless [exit] ended the process. *)
Theorem unknown_subcommand_prints_help (E : Env) (G : Globals)
    (token : string) (sh : Sh) :
  let t := fst (run E G token sh) in
  (In HelpText t <-> recognised (subcommand G) = false)
  /\ (recognised (subcommand G) = false ->
      t = [Construct (apiUrl G) token (debug G) (currentTeam sh);
           ConsoleError InvalidSubcommand; HelpText; Exit 1]
          ++ (if exit_sync E then [] else [Api Close])).
Proof.
  cbv zeta. run_paths; (split; [split|]).
  all: try (intros Hin; exfalso; in_trace Hin; discriminate Hin).
  all: try (intros _; cbn [In]; tauto).
  all: try (intros _; reflexivity).
  all: try (repeat match goal with
              | H : orb _ _ = false |- _ =>
                  apply orb_false_elim in H; destruct H
              end;
            unfold recognised; cbn [existsb];
            repeat match goal with
              | H : Js.strict_eq _ _ = false |- _ => rewrite H; clear H
              end;
            reflexivity).
  all: intros Hr; exfalso; unfold recognised in Hr; cbn [existsb] in Hr;
    repeat match goal with
      | H : orb _ _ = true |- _ =>
          apply orb_prop in H; destruct H
      end;
    repeat match goal with
      | H : Js.strict_eq _ _ = true |- _ => rewrite H in Hr; clear H
      end;
    rewrite ?orb_true_r in Hr; cbn [orb] in Hr; discriminate Hr.
Qed.

Lemma unknown_subcommand_prints_help_witness :
  fst (run (Sample.env None) (Sample.globals None None ["issue"])
           "token" Sample.alice)
  = [Construct "https://api.zeit.co" "token" false None;
     ConsoleError InvalidSubcommand; HelpText; Exit 1; Api Close].
Proof.
  apply (proj2 (unknown_subcommand_prints_help (Sample.env None)
                  (Sample.globals None None ["issue"])
                  "token" Sample.alice)).
  reflexivity.
Defined.

(** ** Standard certificates *)

(** Without any certificate flag [create <cn>] reads no file and makes
    one call, [create] with the [cn] given; the certificate it answers
    gives the identifier of the success message. *)
Theorem create_standard_issues (E : Env) (G : Globals) (token : string)
    (sh : Sh) (cn : string) (cert : Cert) :
  let certs := newNowCerts E (apiUrl G) token (debug G) (currentTeam sh) in
  let t := fst (run E G token sh) in
  subcommand G = Some "create" ->
  tl (argv_ (argv G)) = [cn] ->
  Js.truthy (argv_crt (argv G)) = false ->
  Js.truthy (argv_key (argv G)) = false ->
  Js.truthy (argv_ca (argv G)) = false ->
  create certs cn = Ok (Some cert) ->
  t = [Construct (apiUrl G) token (debug G) (currentTeam sh);
       Api (Create cn);
       ConsoleLog (Success cn (uid cert) "created");
       Api Close]
  /\ existsb isReadFile t = false.
Proof.
  cbv zeta. intros Hs Ha Hcrt Hkey Hca Hc. unfold_run.
  rewrite Hs, Ha, Hcrt, Hkey, Hca, Hc. eval_strict_eq. reduce.
  repeat (reduce; inner_destruct); reduce; split; reflexivity.
Qed.

Lemma create_standard_issues_witness :
  existsb isReadFile
    (fst (run (mkEnv (fun _ _ _ _ =>
                        mkNowCerts (Ok []) (fun cn => Ok (Some Sample.a_com))
                                   (fun _ _ _ _ => Ok None) (fun _ => Ok tt)
                                   (fun _ => Ok tt) (Ok tt))
                     (fun f => Ok f) None Sample.codeUnitCompare
                     Sample.lower false false)
              (Sample.globals None None ["create"; "a.com"])
              "token" Sample.alice)) = false.
Proof.
  apply (create_standard_issues
           (mkEnv (fun _ _ _ _ =>
                     mkNowCerts (Ok []) (fun cn => Ok (Some Sample.a_com))
                                (fun _ _ _ _ => Ok None) (fun _ => Ok tt)
                                (fun _ => Ok tt) (Ok tt))
                  (fun f => Ok f) None Sample.codeUnitCompare
                     Sample.lower false false)
           (Sample.globals None None ["create"; "a.com"])
           "token" Sample.alice "a.com" Sample.a_com);
    reflexivity.
Defined.
